(** * Digital Asset Registry front end (src/App.tsx): a shallow embedding

    The React component [App] keeps thirteen pieces of state and drives a
    wallet provider ([window.ethereum]) and a registry contract through the
    ethers library.  Every handler of the component is an [async] function:
    it runs until it returns, suspending at each [await].

    The embedding:

    - the component state is the record [AppState], one field per
      [useState] cell, with the source's names;
    - the wallet and the contract are external: they are the type classes
      [Wallet] and [Registry.Methods] over an abstract world [W], every call
      taking the world and giving back a settled promise and the next world;
    - a handler is a computation in the monad [M]: it threads the system
      state, can throw (a rejected promise, [catch] receives the error's
      [message]), and records every awaited call and every state setter in
      a chronological [log];
    - the [for] loop of [loadAssets] counts with a JS [number].  Its counter
      is modelled with the rounding of doubles, so the loop takes fuel.

    A handler is run from its call to its return; two handlers suspended at
    the same time are not interleaved.  A handler is a closure of the render
    that created it: it takes that render's cells as its argument [st]. *)

From Stdlib Require Import ZArith List String Ascii Bool Lia.
Import ListNotations.
Open Scope string_scope.
Open Scope Z_scope.

(** ** JavaScript values *)

Module JS.

(** Round a non-negative integer to the nearest double (ties to even).
    Integers below [2^53] are doubles; above, only 53 significant bits
    are kept.  (Overflow to [Infinity] starts near [2^1024], beyond any
    [uint256].) *)
Definition round53 (c : Z) : Z :=
  if c <? 2 ^ 53 then c
  else
    let e := Z.log2 c - 52 in
    let q := c / 2 ^ e in
    let r := c mod 2 ^ e in
    let h := 2 ^ (e - 1) in
    if r <? h then q * 2 ^ e
    else if h <? r then (q + 1) * 2 ^ e
    else if Z.even q then q * 2 ^ e else (q + 1) * 2 ^ e.

(** [Number(b)] for a [bigint] [b]. *)
Definition Number_of_bigint (b : Z) : Z :=
  if b <? 0 then - round53 (- b) else round53 b.

(** [i++] on a [number] holding a non-negative integer. *)
Definition incr (i : Z) : Z := round53 (i + 1).

Definition MAX_SAFE_INTEGER : Z := 2 ^ 53 - 1.

(** An array holds at most this many elements. *)
Definition MAX_ARRAY_LENGTH : Z := 2 ^ 32 - 1.

(** A [number] as the contract call sees it: an integer, or anything else
    ([NaN], an infinity, a fraction). *)
Inductive number : Type :=
| Int (z : Z)
| NotInt.

(** [needle] occurs in [s]: [s.includes(needle)].  A string here is the
    sequence of the UTF-8 bytes of the JS string; one well-formed string
    occurs in another in UTF-8 exactly when it does in UTF-16. *)
Definition includes (needle s : string) : bool :=
  match String.index 0 needle s with
  | Some _ => true
  | None => false
  end.

(** [a || b] on strings: the empty string is falsy; [undefined] is [None]. *)
Definition or_else (a : option string) (b : string) : string :=
  match a with
  | Some x => if String.eqb x "" then b else x
  | None => b
  end.

(** A settled promise; a rejection carries the [message] of its error. *)
Inductive Settled (A : Type) : Type :=
| Resolved (a : A)
| Rejected (message : string).
Arguments Resolved {A} a.
Arguments Rejected {A} message.

End JS.
Import JS.

(** ** Data model *)

(** [CONTRACT_ABI] and [CONTRACT_ADDRESS]. *)
Definition CONTRACT_ABI : list string :=
  [ "function assetCount() view returns (uint256)";
    "function registerAsset(string _name, string _hash)";
    "function transferOwnership(uint256 _assetId, address _newOwner)";
    "function verifyAsset(uint256 _assetId, string _hash) view returns (bool)";
    "function getAsset(uint256 _assetId) view returns (string name, string hash, address owner, uint256 timestamp)";
    "event AssetRegistered(uint256 indexed assetId, address indexed owner, string hash)";
    "event OwnershipTransferred(uint256 indexed assetId, address indexed from, address indexed to)" ].

Definition CONTRACT_ADDRESS : string := "0xcbf9ffdca6e9a6b74cd43b971e817e55647d4e6e".

(** [interface Asset]. *)
Record Asset : Type := mkAsset {
  id : Z;
  name : string;
  hash : string;
  owner : string;
  timestamp : Z
}.

(** The ethers objects the component holds.  A signer speaks for one
    address; a contract handle keeps the signer it was built with. *)
Record Provider : Type := BrowserProvider { }.
Record Signer : Type := mkSigner { signer_address : string }.
Record Contract : Type := mkContract {
  target : string;
  interface : list string;
  runner : Signer
}.

(** The response of a submitted transaction, waited on with [tx.wait()]. *)
Record Tx : Type := mkTx { tx_id : nat }.

(** The value [getAsset] resolves to: [(name, hash, owner, timestamp)], the
    timestamp a [bigint]. *)
Definition AssetTuple : Type := (string * string * string * Z)%type.

(** The [useState] cells of [App]. *)
Record AppState : Type := mkApp {
  provider : option Provider;
  signer : option Signer;
  contract : option Contract;
  account : string;
  assets : list Asset;
  message : string;
  loading : bool;
  assetName : string;
  assetHash : string;
  verifyAssetId : string;
  verifyHash : string;
  transferAssetId : string;
  transferTo : string
}.

(** The first render: every cell at its initial value. *)
Definition initialState : AppState :=
  mkApp None None None "" [] "" false "" "" "" "" "" "".

(** The one listener the component registers:
    [(accounts) => setAccount(accounts[0] || "")]. *)
Inductive Listener : Type :=
| OnAccountsChanged.

(** ** What a handler does: awaited calls and state setters *)

Inductive Call : Type :=
| CGetSigner
| CGetAddress (sg : Signer)
| CAssetCount (c : Contract)
| CGetAsset (c : Contract) (i : number)
| CRegisterAsset (c : Contract) (name_ hash_ : string)
| CTransferOwnership (c : Contract) (assetId : number) (newOwner : string)
| CVerifyAsset (c : Contract) (assetId : number) (hash_ : string)
| CWait (tx : Tx).

Inductive Event : Type :=
| ECall (c : Call)
| ESetProvider (p : Provider)
| ESetSigner (sg : Signer)
| ESetContract (c : Contract)
| ESetAccount (a : string)
| ESetAssets (l : list Asset)
| ESetMessage (m : string)
| ESetLoading (b : bool)
| ESetAssetName (v : string)
| ESetAssetHash (v : string)
| ESetVerifyAssetId (v : string)
| ESetVerifyHash (v : string)
| ESetTransferAssetId (v : string)
| ESetTransferTo (v : string)
| EOn (l : Listener).

(** ** The outside world *)

(** [window.ethereum] and the signer obtained from it. *)
Class Wallet (W : Type) : Type := {
  window_ethereum : W -> bool;
  getSigner : W -> Settled Signer * W;
  getAddress : Signer -> W -> Settled string * W
}.

(** The contract behind [CONTRACT_ABI], called through a handle, and the
    wait for a submitted transaction. *)
Module Registry.
Class Methods (W : Type) : Type := {
  assetCount : Contract -> W -> Settled Z * W;
  registerAsset : Contract -> string -> string -> W -> Settled Tx * W;
  transferOwnership : Contract -> number -> string -> W -> Settled Tx * W;
  verifyAsset : Contract -> number -> string -> W -> Settled bool * W;
  getAsset : Contract -> number -> W -> Settled AssetTuple * W;
  wait : Tx -> W -> Settled unit * W
}.
End Registry.

(** [Number(s)] for a string [s], a builtin of the runtime. *)
Class Runtime : Type := {
  Number : string -> number
}.

(** ** The monad of handlers *)

(** The whole system: the component's cells, the listeners registered on
    [window.ethereum], the chronological record of what was done, and the
    world. *)
Record Sys (W : Type) : Type := mkSys {
  app : AppState;
  listeners : list Listener;
  log : list Event;
  world : W
}.
Arguments mkSys {W} app listeners log world.
Arguments app {W} s.
Arguments listeners {W} s.
Arguments log {W} s.
Arguments world {W} s.

(** How a computation ends: it returns, it throws, or the model's fuel is
    spent (the source would still be running). *)
Inductive Res (S A : Type) : Type :=
| Ret (a : A) (s : S)
| Throw (error : string) (s : S)
| OutOfFuel.
Arguments Ret {S A} a s.
Arguments Throw {S A} error s.
Arguments OutOfFuel {S A}.

Definition M (S A : Type) : Type := S -> Res S A.

Definition ret {S A : Type} (a : A) : M S A := fun s => Ret a s.

Definition bind {S A B : Type} (m : M S A) (k : A -> M S B) : M S B :=
  fun s =>
    match m s with
    | Ret a s' => k a s'
    | Throw e s' => Throw e s'
    | OutOfFuel => OutOfFuel
    end.

Definition out_of_fuel {S A : Type} : M S A := fun _ => OutOfFuel.

(** [try { body } catch (error) { handler(error.message) }] *)
Definition try_catch {S A : Type} (body : M S A) (handler : string -> M S A) : M S A :=
  fun s =>
    match body s with
    | Ret a s' => Ret a s'
    | Throw e s' => handler e s'
    | OutOfFuel => OutOfFuel
    end.

(** [try { body } finally { finalizer }]: the finalizer runs on return and
    on throw alike, and the outcome of the body stands. *)
Definition try_finally {S A : Type} (body : M S A) (finalizer : M S unit) : M S A :=
  fun s =>
    match body s with
    | Ret a s' => bind finalizer (fun _ => ret a) s'
    | Throw e s' => bind finalizer (fun _ => fun s'' => Throw e s'') s'
    | OutOfFuel => OutOfFuel
    end.

Declare Scope handler_scope.
Delimit Scope handler_scope with handler.
Notation "x <- m ;; k" := (bind m (fun x => k))
  (at level 61, m at next level, right associativity) : handler_scope.
Notation "m ;; k" := (bind m (fun _ => k))
  (at level 61, right associativity) : handler_scope.
Open Scope handler_scope.

(** ** Cell updates *)

Definition with_provider (v : option Provider) (a : AppState) : AppState :=
  mkApp v (signer a) (contract a) (account a) (assets a) (message a) (loading a)
        (assetName a) (assetHash a) (verifyAssetId a) (verifyHash a)
        (transferAssetId a) (transferTo a).
Definition with_signer (v : option Signer) (a : AppState) : AppState :=
  mkApp (provider a) v (contract a) (account a) (assets a) (message a) (loading a)
        (assetName a) (assetHash a) (verifyAssetId a) (verifyHash a)
        (transferAssetId a) (transferTo a).
Definition with_contract (v : option Contract) (a : AppState) : AppState :=
  mkApp (provider a) (signer a) v (account a) (assets a) (message a) (loading a)
        (assetName a) (assetHash a) (verifyAssetId a) (verifyHash a)
        (transferAssetId a) (transferTo a).
Definition with_account (v : string) (a : AppState) : AppState :=
  mkApp (provider a) (signer a) (contract a) v (assets a) (message a) (loading a)
        (assetName a) (assetHash a) (verifyAssetId a) (verifyHash a)
        (transferAssetId a) (transferTo a).
Definition with_assets (v : list Asset) (a : AppState) : AppState :=
  mkApp (provider a) (signer a) (contract a) (account a) v (message a) (loading a)
        (assetName a) (assetHash a) (verifyAssetId a) (verifyHash a)
        (transferAssetId a) (transferTo a).
Definition with_message (v : string) (a : AppState) : AppState :=
  mkApp (provider a) (signer a) (contract a) (account a) (assets a) v (loading a)
        (assetName a) (assetHash a) (verifyAssetId a) (verifyHash a)
        (transferAssetId a) (transferTo a).
Definition with_loading (v : bool) (a : AppState) : AppState :=
  mkApp (provider a) (signer a) (contract a) (account a) (assets a) (message a) v
        (assetName a) (assetHash a) (verifyAssetId a) (verifyHash a)
        (transferAssetId a) (transferTo a).
Definition with_assetName (v : string) (a : AppState) : AppState :=
  mkApp (provider a) (signer a) (contract a) (account a) (assets a) (message a) (loading a)
        v (assetHash a) (verifyAssetId a) (verifyHash a)
        (transferAssetId a) (transferTo a).
Definition with_assetHash (v : string) (a : AppState) : AppState :=
  mkApp (provider a) (signer a) (contract a) (account a) (assets a) (message a) (loading a)
        (assetName a) v (verifyAssetId a) (verifyHash a)
        (transferAssetId a) (transferTo a).
Definition with_verifyAssetId (v : string) (a : AppState) : AppState :=
  mkApp (provider a) (signer a) (contract a) (account a) (assets a) (message a) (loading a)
        (assetName a) (assetHash a) v (verifyHash a)
        (transferAssetId a) (transferTo a).
Definition with_verifyHash (v : string) (a : AppState) : AppState :=
  mkApp (provider a) (signer a) (contract a) (account a) (assets a) (message a) (loading a)
        (assetName a) (assetHash a) (verifyAssetId a) v
        (transferAssetId a) (transferTo a).
Definition with_transferAssetId (v : string) (a : AppState) : AppState :=
  mkApp (provider a) (signer a) (contract a) (account a) (assets a) (message a) (loading a)
        (assetName a) (assetHash a) (verifyAssetId a) (verifyHash a)
        v (transferTo a).
Definition with_transferTo (v : string) (a : AppState) : AppState :=
  mkApp (provider a) (signer a) (contract a) (account a) (assets a) (message a) (loading a)
        (assetName a) (assetHash a) (verifyAssetId a) (verifyHash a)
        (transferAssetId a) v.

(** ** The component *)

Section App.

Context {W : Type} {wallet : Wallet W} {registry : Registry.Methods W}
        {runtime : Runtime}.

Local Abbreviation Handler := (M (Sys W)).

(** A state setter: the cell is replaced and the call recorded. *)
Definition updated (e : Event) (f : AppState -> AppState) (s : Sys W) : Sys W :=
  mkSys (f (app s)) (listeners s) (log s ++ [e])%list (world s).

Definition setState (e : Event) (f : AppState -> AppState) : Handler unit :=
  fun s => Ret tt (updated e f s).

Definition setProvider (v : Provider) : Handler unit :=
  setState (ESetProvider v) (with_provider (Some v)).
Definition setSigner (v : Signer) : Handler unit :=
  setState (ESetSigner v) (with_signer (Some v)).
Definition setContract (v : Contract) : Handler unit :=
  setState (ESetContract v) (with_contract (Some v)).
Definition setAccount (v : string) : Handler unit :=
  setState (ESetAccount v) (with_account v).
Definition setAssets (v : list Asset) : Handler unit :=
  setState (ESetAssets v) (with_assets v).
Definition setMessage (v : string) : Handler unit :=
  setState (ESetMessage v) (with_message v).
Definition setLoading (v : bool) : Handler unit :=
  setState (ESetLoading v) (with_loading v).
Definition setAssetName (v : string) : Handler unit :=
  setState (ESetAssetName v) (with_assetName v).
Definition setAssetHash (v : string) : Handler unit :=
  setState (ESetAssetHash v) (with_assetHash v).
Definition setVerifyAssetId (v : string) : Handler unit :=
  setState (ESetVerifyAssetId v) (with_verifyAssetId v).
Definition setVerifyHash (v : string) : Handler unit :=
  setState (ESetVerifyHash v) (with_verifyHash v).
Definition setTransferAssetId (v : string) : Handler unit :=
  setState (ESetTransferAssetId v) (with_transferAssetId v).
Definition setTransferTo (v : string) : Handler unit :=
  setState (ESetTransferTo v) (with_transferTo v).

(** [await call]: the call is recorded, the world moves on, and the promise
    either resolves to a value or rejects, which throws. *)
Definition answered (c : Call) (w : W) (s : Sys W) : Sys W :=
  mkSys (app s) (listeners s) (log s ++ [ECall c])%list w.

Definition await {A : Type} (c : Call) (f : W -> Settled A * W) : Handler A :=
  fun s =>
    let s' := answered c (snd (f (world s))) s in
    match fst (f (world s)) with
    | Resolved a => Ret a s'
    | Rejected e => Throw e s'
    end.

(** [window.ethereum], tested for presence. *)
Definition ethereum_detected : Handler bool :=
  fun s => Ret (window_ethereum (world s)) s.

(** [window.ethereum.on("accountsChanged", l)]: one more listener. *)
Definition ethereum_on (l : Listener) : Handler unit :=
  fun s => Ret tt (mkSys (app s) (listeners s ++ [l])%list
                         (log s ++ [EOn l])%list (world s)).

(** *** connectWallet *)

Definition connectWallet : Handler unit :=
  detected <- ethereum_detected ;;
  if negb detected then
    setMessage "⚠️ MetaMask not detected. Please install it."
  else
    try_catch
      (let provider_ := BrowserProvider in
       signer_ <- await CGetSigner getSigner ;;
       address <- await (CGetAddress signer_) (getAddress signer_) ;;
       setProvider provider_ ;;
       setSigner signer_ ;;
       setAccount address ;;
       ethereum_on OnAccountsChanged ;;
       setMessage "✅ Wallet connected successfully!")
      (fun error => setMessage ("❌ Error connecting wallet: " ++ error)).

(** *** loadAssets

    [for (let i = 1; i <= Number(count); i++)]: one unit of fuel per test
    of the loop condition.  The array [list] is modelled by a list; the
    properties below are stated for counts an array can hold. *)
Fixpoint loadAssets_for (fuel : nat) (c : Contract) (count : Z) (i : Z)
         (list_ : list Asset) : Handler (list Asset) :=
  match fuel with
  | O => out_of_fuel
  | S fuel' =>
      if i <=? Number_of_bigint count then
        asset <- await (CGetAsset c (Int i)) (Registry.getAsset c (Int i)) ;;
        let '(name_, hash_, owner_, timestamp_) := asset in
        loadAssets_for fuel' c count (incr i)
          (list_ ++ [mkAsset i name_ hash_ owner_ (Number_of_bigint timestamp_)])%list
      else ret list_
  end.

(** [st] is the render whose closure is running: [contract] below is that
    render's cell. *)
Definition loadAssets (fuel : nat) (st : AppState) (c : option Contract)
  : Handler unit :=
  let contractToUse :=
    match c with Some c' => Some c' | None => contract st end in
  match contractToUse with
  | None => ret tt
  | Some cu =>
      try_catch
        (count <- await (CAssetCount cu) (Registry.assetCount cu) ;;
         list_ <- loadAssets_for fuel cu count 1 [] ;;
         setAssets list_)
        (fun error => setMessage ("❌ Error loading assets: " ++ error))
  end.

(** *** connectContract *)

Definition connectContract (fuel : nat) (st : AppState) : Handler unit :=
  match signer st with
  | None => setMessage "⚠️ Connect wallet first!"
  | Some signer_ =>
      try_catch
        (let c := mkContract CONTRACT_ADDRESS CONTRACT_ABI signer_ in
         setContract c ;;
         setMessage "✅ Connected to contract!" ;;
         loadAssets fuel st (Some c))
        (fun error => setMessage ("❌ Error connecting contract: " ++ error))
  end.

(** *** registerAsset *)

Definition registerAsset (fuel : nat) (st : AppState) : Handler unit :=
  match contract st with
  | None => ret tt
  | Some c =>
      try_finally
        (try_catch
           (setLoading true ;;
            tx <- await (CRegisterAsset c (assetName st) (assetHash st))
                        (Registry.registerAsset c (assetName st) (assetHash st)) ;;
            await (CWait tx) (Registry.wait tx) ;;
            setMessage "✅ Asset registered successfully!" ;;
            setAssetName "" ;;
            setAssetHash "" ;;
            loadAssets fuel st (contract st))
           (fun error => setMessage ("❌ Error registering asset: " ++ error)))
        (setLoading false)
  end.

(** *** transferOwnership *)

Definition transferOwnership (fuel : nat) (st : AppState) : Handler unit :=
  match contract st with
  | None => ret tt
  | Some c =>
      try_finally
        (try_catch
           (setLoading true ;;
            tx <- await (CTransferOwnership c (Number (transferAssetId st)) (transferTo st))
                        (Registry.transferOwnership c (Number (transferAssetId st))
                                                    (transferTo st)) ;;
            await (CWait tx) (Registry.wait tx) ;;
            setMessage "✅ Ownership transferred!" ;;
            setTransferAssetId "" ;;
            setTransferTo "" ;;
            loadAssets fuel st (contract st))
           (fun error => setMessage ("❌ Error transferring ownership: " ++ error)))
        (setLoading false)
  end.

(** *** verifyAsset *)

Definition verifyAsset (st : AppState) : Handler unit :=
  match contract st with
  | None => ret tt
  | Some c =>
      try_catch
        (valid <- await (CVerifyAsset c (Number (verifyAssetId st)) (verifyHash st))
                        (Registry.verifyAsset c (Number (verifyAssetId st))
                                              (verifyHash st)) ;;
         setMessage (if valid : bool then "✅ Asset hash is valid!"
                     else "❌ Asset hash mismatch!"))
        (fun error => setMessage ("❌ Error verifying asset: " ++ error))
  end.

(** *** The effect run at mount *)

Definition useEffect_mount : Handler unit :=
  detected <- ethereum_detected ;;
  if detected then connectWallet else ret tt.

(** *** The wallet reports its accounts *)

Definition run_listener (l : Listener) (accounts : list string) : Handler unit :=
  match l with
  | OnAccountsChanged => setAccount (or_else (nth_error accounts 0) "")
  end.

Fixpoint run_listeners (ls : list Listener) (accounts : list string)
  : Handler unit :=
  match ls with
  | [] => ret tt
  | l :: ls' => run_listener l accounts ;; run_listeners ls' accounts
  end.

(** The provider emits [accountsChanged]: every registered listener is
    called, in the order of registration. *)
Definition accountsChanged (accounts : list string) : Handler unit :=
  fun s => run_listeners (listeners s) accounts s.

(** *** The rendered page *)

Inductive Button : Type :=
| ConnectWalletButton
| ConnectContractButton
| RegisterButton
| TransferButton
| VerifyButton
| RefreshButton.

(** The [disabled] attribute of each button. *)
Definition disabled (b : Button) (st : AppState) : bool :=
  match b with
  | ConnectWalletButton => false
  | ConnectContractButton =>
      match signer st with Some _ => false | None => true end
  | RegisterButton | TransferButton =>
      match contract st with Some _ => false | None => true end || loading st
  | VerifyButton | RefreshButton =>
      match contract st with Some _ => false | None => true end
  end.

(** The [onClick] of each button, a closure of the render [st]. *)
Definition onClick (fuel : nat) (b : Button) (st : AppState) : Handler unit :=
  match b with
  | ConnectWalletButton => connectWallet
  | ConnectContractButton => connectContract fuel st
  | RegisterButton => registerAsset fuel st
  | TransferButton => transferOwnership fuel st
  | VerifyButton => verifyAsset st
  | RefreshButton => loadAssets fuel st None
  end.

(** A click on the page as last rendered: a disabled button dispatches
    nothing. *)
Definition click (fuel : nat) (b : Button) : Handler unit :=
  fun s =>
    if disabled b (app s) then Ret tt s
    else onClick fuel b (app s) s.

(** [{message && <div className={...}>{message}</div>}]: nothing for the
    empty message, else the class and the text. *)
Definition messageClass (m : string) : string :=
  if includes "❌" m then "error" else "success".

Definition statusMessage (st : AppState) : option (string * string) :=
  if String.eqb (message st) "" then None
  else Some (messageClass (message st), message st).

(** [{loading && <div className="loading">...</div>}] *)
Definition loadingBanner (st : AppState) : bool := loading st.

(** [<p>Account: {account || "Not connected"}</p>] *)
Definition accountLine (st : AppState) : string :=
  "Account: " ++ or_else (Some (account st)) "Not connected".

End App.


(** ** The refresh as the specification words it

    "Reads [assetCount], then reads assets [1..assetCount] in ascending id
    order", failing at the first read that fails.  [loadAssets] is compared
    with this reading below. *)

Section Reading.

Context {W : Type} {registry : Registry.Methods W}.

(** What a sequence of reads amounts to: the calls made, in order, the
    assets read or the first failure, and the world left. *)
Record Reading : Type := mkReading {
  calls : list Call;
  outcome : Settled (list Asset);
  world_after : W
}.

Definition ids_upto (n : Z) : list Z := map Z.of_nat (seq 1 (Z.to_nat n)).

Fixpoint read_in_order (c : Contract) (ids : list Z) (w : W) : Reading :=
  match ids with
  | [] => mkReading [] (Resolved []) w
  | i :: ids' =>
      let r := Registry.getAsset c (Int i) w in
      match fst r with
      | Rejected e => mkReading [CGetAsset c (Int i)] (Rejected e) (snd r)
      | Resolved (name_, hash_, owner_, timestamp_) =>
          let rest := read_in_order c ids' (snd r) in
          mkReading
            (CGetAsset c (Int i) :: calls rest)
            (match outcome rest with
             | Resolved l =>
                 Resolved (mkAsset i name_ hash_ owner_ (Number_of_bigint timestamp_) :: l)
             | Rejected e => Rejected e
             end)
            (world_after rest)
      end
  end.

Definition refresh (c : Contract) (w : W) : Reading :=
  let r := Registry.assetCount c w in
  match fst r with
  | Rejected e => mkReading [CAssetCount c] (Rejected e) (snd r)
  | Resolved n =>
      let rest := read_in_order c (ids_upto n) (snd r) in
      mkReading (CAssetCount c :: calls rest) (outcome rest) (world_after rest)
  end.

(** The loop of [loadAssets] can walk the count read in world [w] with
    [fuel]: an array can hold that many assets, and the count is smaller
    than the fuel. *)
Definition walkable (fuel : nat) (c : Contract) (w : W) : Prop :=
  forall n, fst (Registry.assetCount c w) = Resolved n ->
            0 <= n <= MAX_ARRAY_LENGTH /\ (Z.to_nat n < fuel)%nat.

(** The system after a refresh that read [r]: the new list in [assets], or
    the failure in [message]; in both cases the calls of [r] in the log,
    then the one setter. *)
Definition refreshed (r : Reading) (s : Sys W) : Sys W :=
  match outcome r with
  | Resolved l =>
      mkSys (with_assets l (app s)) (listeners s)
            (log s ++ map ECall (calls r) ++ [ESetAssets l])%list
            (world_after r)
  | Rejected e =>
      mkSys (with_message ("❌ Error loading assets: " ++ e) (app s)) (listeners s)
            (log s ++ map ECall (calls r)
                   ++ [ESetMessage ("❌ Error loading assets: " ++ e)])%list
            (world_after r)
  end.

(** What a refresh adds to the log: its calls, then its one setter. *)
Definition refresh_events (r : Reading) : list Event :=
  (map ECall (calls r)
   ++ [match outcome r with
       | Resolved l => ESetAssets l
       | Rejected e => ESetMessage ("❌ Error loading assets: " ++ e)
       end])%list.

End Reading.

Arguments Reading W : clear implicits.

(** ** A mutation, step by step

    [registerAsset] and [transferOwnership] have one shape.  The system a
    run of that shape leaves is spelled out here, for a submission [f]
    recorded as [submit], the message [ok] of the [try] block, the [prefix]
    of the [catch] block and the setters [clear] that empty the form. *)

Section Mutation.

Context {W : Type} {registry : Registry.Methods W}.

(** The world in which the refresh starts, when the submission and the wait
    both resolve. *)
Definition confirmed_world (f : W -> Settled Tx * W) (w : W) : option W :=
  match fst (f w) with
  | Resolved tx =>
      match fst (Registry.wait tx (snd (f w))) with
      | Resolved _ => Some (snd (Registry.wait tx (snd (f w))))
      | Rejected _ => None
      end
  | Rejected _ => None
  end.

Definition caught (prefix e : string) (s : Sys W) : Sys W :=
  updated (ESetLoading false) (with_loading false)
    (updated (ESetMessage (prefix ++ e)) (with_message (prefix ++ e)) s).

Definition mutated (c : Contract) (submit : Call) (f : W -> Settled Tx * W)
           (ok prefix : string) (clear : Sys W -> Sys W) (s : Sys W) : Sys W :=
  let s1 := answered submit (snd (f (world s)))
              (updated (ESetLoading true) (with_loading true) s) in
  match fst (f (world s)) with
  | Rejected e => caught prefix e s1
  | Resolved tx =>
      let s2 := answered (CWait tx) (snd (Registry.wait tx (world s1))) s1 in
      match fst (Registry.wait tx (world s1)) with
      | Rejected e => caught prefix e s2
      | Resolved _ =>
          let s3 := clear (updated (ESetMessage ok) (with_message ok) s2) in
          updated (ESetLoading false) (with_loading false)
            (refreshed (refresh c (world s3)) s3)
      end
  end.

(** What a mutation adds to the log, in a world [w]; [cleared] are the
    events of the setters that empty the form. *)
Definition mutation_events (c : Contract) (submit : Call)
           (f : W -> Settled Tx * W) (ok prefix : string)
           (cleared : list Event) (w : W) : list Event :=
  ESetLoading true :: ECall submit ::
  match fst (f w) with
  | Rejected e => [ESetMessage (prefix ++ e); ESetLoading false]
  | Resolved tx =>
      ECall (CWait tx) ::
      match fst (Registry.wait tx (snd (f w))) with
      | Rejected e => [ESetMessage (prefix ++ e); ESetLoading false]
      | Resolved _ =>
          (ESetMessage ok :: cleared
           ++ refresh_events (refresh c (snd (Registry.wait tx (snd (f w)))))
           ++ [ESetLoading false])%list
      end
  end.

Definition clear_register (s : Sys W) : Sys W :=
  updated (ESetAssetHash "") (with_assetHash "")
    (updated (ESetAssetName "") (with_assetName "") s).

Definition clear_transfer (s : Sys W) : Sys W :=
  updated (ESetTransferTo "") (with_transferTo "")
    (updated (ESetTransferAssetId "") (with_transferAssetId "") s).

End Mutation.

(** ** The outcomes the component reports

    One constructor for each [setMessage] of the source, with the text it
    sets.  [tag] says how the operation ended there: [Failure] in the
    [catch] blocks and at the two guards that refuse to start, [Success]
    where the [try] block ran to its message (a hash that does not match is
    an answer of the registry, not a failure of the call). *)

Inductive Tag : Type :=
| Success
| Failure.

Inductive Outcome : Type :=
| NoWallet
| WalletConnected
| WalletError (error : string)
| NoSigner
| ContractConnected
| ContractError (error : string)
| Registered
| RegisterError (error : string)
| Transferred
| TransferError (error : string)
| HashValid
| HashMismatch
| VerifyError (error : string)
| LoadError (error : string).

Definition text (o : Outcome) : string :=
  match o with
  | NoWallet => "⚠️ MetaMask not detected. Please install it."
  | WalletConnected => "✅ Wallet connected successfully!"
  | WalletError e => "❌ Error connecting wallet: " ++ e
  | NoSigner => "⚠️ Connect wallet first!"
  | ContractConnected => "✅ Connected to contract!"
  | ContractError e => "❌ Error connecting contract: " ++ e
  | Registered => "✅ Asset registered successfully!"
  | RegisterError e => "❌ Error registering asset: " ++ e
  | Transferred => "✅ Ownership transferred!"
  | TransferError e => "❌ Error transferring ownership: " ++ e
  | HashValid => "✅ Asset hash is valid!"
  | HashMismatch => "❌ Asset hash mismatch!"
  | VerifyError e => "❌ Error verifying asset: " ++ e
  | LoadError e => "❌ Error loading assets: " ++ e
  end.

Definition tag (o : Outcome) : Tag :=
  match o with
  | WalletConnected | ContractConnected | Registered | Transferred
  | HashValid | HashMismatch => Success
  | NoWallet | WalletError _ | NoSigner | ContractError _ | RegisterError _
  | TransferError _ | VerifyError _ | LoadError _ => Failure
  end.

(** The outcomes set in a [catch] block. *)
Definition caught_error (o : Outcome) : bool :=
  match o with
  | WalletError _ | ContractError _ | RegisterError _ | TransferError _
  | VerifyError _ | LoadError _ => true
  | _ => false
  end.

(** The outcomes whose text starts with the check mark. *)
Definition completed (o : Outcome) : bool :=
  match o with
  | WalletConnected | ContractConnected | Registered | Transferred
  | HashValid => true
  | _ => false
  end.

(** ** The page in use

    What can happen to the page: it mounts, a button is clicked, a field is
    typed in, the wallet reports its accounts; and the world moves on by
    itself between two of these. *)

Section Page.

Context {W : Type} {wallet : Wallet W} {registry : Registry.Methods W}
        {runtime : Runtime}.

Inductive Field : Type :=
| AssetNameField
| AssetHashField
| TransferAssetIdField
| TransferToField
| VerifyAssetIdField
| VerifyHashField.

(** The [onChange] of each input: the value typed is stored. *)
Definition onChange (f : Field) (v : string) : M (Sys W) unit :=
  match f with
  | AssetNameField => setAssetName v
  | AssetHashField => setAssetHash v
  | TransferAssetIdField => setTransferAssetId v
  | TransferToField => setTransferTo v
  | VerifyAssetIdField => setVerifyAssetId v
  | VerifyHashField => setVerifyHash v
  end.

Inductive Action : Type :=
| Mount
| Click (b : Button)
| Change (f : Field) (v : string)
| AccountsChanged (accounts : list string).

Definition perform (fuel : nat) (a : Action) : M (Sys W) unit :=
  match a with
  | Mount => useEffect_mount
  | Click b => click fuel b
  | Change f v => onChange f v
  | AccountsChanged accounts => accountsChanged accounts
  end.

Definition boot (w : W) : Sys W := mkSys initialState [] [] w.

Inductive reachable : Sys W -> Prop :=
| reach_boot (w : W) : reachable (boot w)
| reach_world (s : Sys W) (w : W) :
    reachable s -> reachable (mkSys (app s) (listeners s) (log s) w)
| reach_return (s s' : Sys W) (fuel : nat) (a : Action) :
    reachable s -> perform fuel a s = Ret tt s' -> reachable s'
| reach_throw (s s' : Sys W) (fuel : nat) (a : Action) (e : string) :
    reachable s -> perform fuel a s = Throw e s' -> reachable s'.

(** The successful [connectWallet] calls recorded in a log: each one, and
    nothing else, sets the message of [WalletConnected]. *)
Definition is_connection (e : Event) : bool :=
  match e with
  | ESetMessage m => String.eqb m (text WalletConnected)
  | _ => false
  end.

Definition connections (l : list Event) : nat :=
  List.length (filter is_connection l).

(** The outcomes reported by [connectWallet]. *)
Definition from_wallet (o : Outcome) : bool :=
  match o with
  | NoWallet | WalletConnected | WalletError _ => true
  | _ => false
  end.

(** An event of a handler other than [connectWallet]. *)
Definition handler_event (e : Event) : Prop :=
  match e with
  | ECall CGetSigner | ECall (CGetAddress _) => False
  | ESetProvider _ | ESetSigner _ | EOn _ => False
  | ESetMessage m => exists o, from_wallet o = false /\ m = text o
  | _ => True
  end.

(** A message set is the text of one of the outcomes. *)
Definition reported (e : Event) : Prop :=
  match e with
  | ESetMessage m => exists o, m = text o
  | _ => True
  end.

(** [Q] holds of the system a run leaves, whether it returns or throws. *)
Definition after_run {A : Type} (m : M (Sys W) A) (s : Sys W)
           (Q : Sys W -> Prop) : Prop :=
  match m s with
  | Ret _ s' => Q s'
  | Throw _ s' => Q s'
  | OutOfFuel => True
  end.

(** From [s] to [s'] no listener was touched and the log gained events
    satisfying [P] only. *)
Definition quiet (P : Event -> Prop) (s s' : Sys W) : Prop :=
  listeners s' = listeners s /\
  exists evs, log s' = (log s ++ evs)%list /\ Forall P evs.

Definition keeps (P : Event -> Prop) {A : Type} (m : M (Sys W) A) : Prop :=
  forall s, after_run m s (quiet P s).

(** From [s] to [s'] the listeners gained [k] entries, the log gained as
    many connections, and every message set is a reported outcome. *)
Definition advances (s s' : Sys W) : Prop :=
  exists k : nat,
    listeners s' = (listeners s ++ repeat OnAccountsChanged k)%list /\
    connections (log s') = (connections (log s) + k)%nat /\
    exists evs, log s' = (log s ++ evs)%list /\ Forall reported evs.

(** The system [connectWallet] leaves when the signer and its address are
    obtained. *)
Definition wallet_connected (sg : Signer) (address : string) (w : W)
           (s : Sys W) : Sys W :=
  mkSys (with_message (text WalletConnected)
           (with_account address
              (with_signer (Some sg) (with_provider (Some BrowserProvider) (app s)))))
        (listeners s ++ [OnAccountsChanged])%list
        (log s ++ [ECall CGetSigner; ECall (CGetAddress sg);
                   ESetProvider BrowserProvider; ESetSigner sg;
                   ESetAccount address; EOn OnAccountsChanged;
                   ESetMessage (text WalletConnected)])%list
        w.

End Page.

(** ** A simulated wallet and registry

    The contract and the wallet are not among the sources.  The instance
    below is used to run the component on concrete inputs. *)

Module Sim.

(** A change waiting in a submitted transaction. *)
Inductive Change : Type :=
| Register (name_ hash_ owner_ : string)
| Transfer (assetId : Z) (newOwner : string).

(** Modelled from the spec: the ledger endpoint and the wallet provider
    (the registry contract and [window.ethereum] are not in the sources).
    Assets are numbered [1..assetCount] without gaps and only appended; a
    register gives the next id, the caller as owner and the time of mining;
    a transfer changes the owner only; a submitted change takes effect when
    its transaction is waited for.  [outage = Some n] makes the call after
    [n] further calls fail once, as a transport fault. *)
Record Chain : Type := mkChain {
  ethereum : bool;
  wallet_accounts : list string;
  registry : list AssetTuple;
  mempool : list (nat * Change);
  next_tx : nat;
  clock : Z;
  outage : option nat
}.

Definition with_outage (o : option nat) (w : Chain) : Chain :=
  mkChain (ethereum w) (wallet_accounts w) (registry w) (mempool w)
          (next_tx w) (clock w) o.

Definition with_registry (r : list AssetTuple) (w : Chain) : Chain :=
  mkChain (ethereum w) (wallet_accounts w) r (mempool w)
          (next_tx w) (clock w) (outage w).

Definition submit (ch : Change) (w : Chain) : Settled Tx * Chain :=
  (Resolved (mkTx (next_tx w)),
   mkChain (ethereum w) (wallet_accounts w) (registry w)
           (mempool w ++ [(next_tx w, ch)])%list
           (S (next_tx w)) (clock w) (outage w)).

(** Every call goes over the network. *)
Definition transport {A : Type} (f : Chain -> Settled A * Chain)
  : Chain -> Settled A * Chain :=
  fun w =>
    match outage w with
    | Some O => (Rejected "network error", with_outage None w)
    | Some (S n) => f (with_outage (Some n) w)
    | None => f w
    end.

Definition assetCount_of (w : Chain) : Z := Z.of_nat (List.length (registry w)).

Definition in_range (i : Z) (w : Chain) : bool :=
  (1 <=? i) && (i <=? assetCount_of w).

Definition stored (i : Z) (w : Chain) : option AssetTuple :=
  if in_range i w then nth_error (registry w) (Z.to_nat (i - 1)) else None.

Fixpoint set_owner (n : nat) (o : string) (r : list AssetTuple)
  : list AssetTuple :=
  match r, n with
  | [], _ => []
  | (nm, h, _, t) :: r', O => (nm, h, o, t) :: r'
  | a :: r', S n' => a :: set_owner n' o r'
  end.

Definition apply_change (ch : Change) (w : Chain) : Chain :=
  match ch with
  | Register nm h o => with_registry (registry w ++ [(nm, h, o, clock w)])%list w
  | Transfer i o =>
      if in_range i w then with_registry (set_owner (Z.to_nat (i - 1)) o (registry w)) w
      else w
  end.

Fixpoint take_tx (n : nat) (pool : list (nat * Change))
  : option Change * list (nat * Change) :=
  match pool with
  | [] => (None, [])
  | (k, ch) :: pool' =>
      if Nat.eqb k n then (Some ch, pool')
      else let r := take_tx n pool' in (fst r, (k, ch) :: snd r)
  end.

Definition mine (tx : Tx) (w : Chain) : Settled unit * Chain :=
  let r := take_tx (tx_id tx) (mempool w) in
  let w' := mkChain (ethereum w) (wallet_accounts w) (registry w) (snd r)
                    (next_tx w) (clock w) (outage w) in
  match fst r with
  | Some ch => (Resolved tt, apply_change ch w')
  | None => (Resolved tt, w')
  end.

(** Modelled from the spec: the wallet provider ("requestIdentities",
    "getCallerHandle").  The signer speaks for the first identity of the
    wallet; with no identity the request is refused. *)
#[global] Instance wallet : Wallet Chain := {
  window_ethereum := ethereum;
  getSigner := transport (fun w =>
    match wallet_accounts w with
    | a :: _ => (Resolved (mkSigner a), w)
    | [] => (Rejected "user rejected the request", w)
    end);
  getAddress := fun sg => transport (fun w => (Resolved (signer_address sg), w))
}.

(** Modelled from the spec: the five methods of the ledger endpoint.
    "readAssetCount: pure read"; "readAsset: requires 1 <= id <=
    assetCount", an id out of range erroring; "submitRegister" and
    "submitTransfer" initiate a change and do not wait for finality, the
    transfer requiring an id in range; "readVerify: returns whether hash
    equals the stored contentHash of asset id; non-existent id yields
    [a failure] rather than false".  A number that is no integer is
    refused before the call leaves. *)
#[global] Instance methods : Registry.Methods Chain := {
  Registry.assetCount := fun _ => transport (fun w => (Resolved (assetCount_of w), w));
  Registry.registerAsset := fun c nm h =>
    transport (submit (Register nm h (signer_address (runner c))));
  Registry.transferOwnership := fun c i o =>
    transport (fun w =>
      match i with
      | Int z => if in_range z w then submit (Transfer z o) w
                 else (Rejected "execution reverted", w)
      | NotInt => (Rejected "invalid BigNumberish value", w)
      end);
  Registry.verifyAsset := fun _ i h =>
    transport (fun w =>
      match i with
      | Int z =>
          match stored z w with
          | Some (_, h', _, _) => (Resolved (String.eqb h h'), w)
          | None => (Rejected "execution reverted", w)
          end
      | NotInt => (Rejected "invalid BigNumberish value", w)
      end);
  Registry.getAsset := fun _ i =>
    transport (fun w =>
      match i with
      | Int z =>
          match stored z w with
          | Some a => (Resolved a, w)
          | None => (Rejected "execution reverted", w)
          end
      | NotInt => (Rejected "invalid BigNumberish value", w)
      end);
  Registry.wait := fun tx => transport (mine tx)
}.

(** [Number] on the strings used here: the empty string is [0], a string
    of decimal digits with an optional sign is its value; this instance
    answers [NotInt] on every other string. *)
Definition digit (a : ascii) : option Z :=
  let n := Z.of_nat (nat_of_ascii a) in
  if (48 <=? n) && (n <=? 57) then Some (n - 48) else None.

Fixpoint digits (s : string) (acc : Z) : option Z :=
  match s with
  | EmptyString => Some acc
  | String a s' =>
      match digit a with
      | Some d => digits s' (10 * acc + d)
      | None => None
      end
  end.

Definition unsigned (s : string) : option Z :=
  match s with
  | EmptyString => None
  | _ => digits s 0
  end.

Definition Number_decimal (s : string) : number :=
  match s with
  | EmptyString => Int 0
  | String "-" s' =>
      match unsigned s' with Some z => Int (- z) | None => NotInt end
  | String "+" s' =>
      match unsigned s' with Some z => Int z | None => NotInt end
  | _ => match unsigned s with Some z => Int z | None => NotInt end
  end.

#[global] Instance runtime : Runtime := { Number := Number_decimal }.

(** A page just loaded in a browser with a wallet holding [accounts], in
    front of a registry holding [r]. *)
Definition chain (accounts : list string) (r : list AssetTuple) : Chain :=
  mkChain true accounts r [] 0 1700000000 None.

(** The system a handler leaves ([s] itself if the fuel is spent). *)
Definition run {A : Type} (m : M (Sys Chain) A) (s : Sys Chain) : Sys Chain :=
  match m s with
  | Ret _ s' => s'
  | Throw _ s' => s'
  | OutOfFuel => s
  end.

(** A session: the page mounts in front of an empty registry with the
    wallet of [0xAA]; the contract is connected; a deed is typed in; it is
    registered. *)
Definition start : Sys Chain := boot (chain ["0xAA"] []).

Definition mounted : Sys Chain :=
  Eval vm_compute in run useEffect_mount start.

Definition twice : Sys Chain :=
  Eval vm_compute in run (click 10 ConnectWalletButton) mounted.

Definition ready : Sys Chain :=
  Eval vm_compute in run (click 10 ConnectContractButton) mounted.

Definition filled : Sys Chain :=
  Eval vm_compute in
    run (onChange AssetHashField "0xabc") (run (onChange AssetNameField "Deed A") ready).

(** The page while a registration is awaited: the flag is set. *)
Definition busy : Sys Chain :=
  Eval vm_compute in run (setLoading true) filled.

Definition registered : Sys Chain :=
  Eval vm_compute in run (click 10 RegisterButton) filled.

(** Later somebody else has registered a second deed, and the network
    fails at the third call from now. *)
Definition cut_off : Sys Chain :=
  Eval vm_compute in
    mkSys (app registered) (listeners registered) (log registered)
          (with_outage (Some 2%nat)
             (with_registry
                (registry (world registered)
                 ++ [("Deed B", "0xdef", "0xCC", 1700000600)])%list
                (world registered))).

(** The handle of the session. *)
Definition handle : Contract :=
  mkContract CONTRACT_ADDRESS CONTRACT_ABI (mkSigner "0xAA").

End Sim.

(** ** The order the specification words

    "Submission strictly precedes the finality wait, which strictly
    precedes the catalog refresh, which strictly precedes outcome
    reporting."  [claimed_order] tests a log for it. *)

Definition phase (e : Event) : option nat :=
  match e with
  | ECall (CRegisterAsset _ _ _) | ECall (CTransferOwnership _ _ _) => Some 0%nat
  | ECall (CWait _) => Some 1%nat
  | ECall (CAssetCount _) | ECall (CGetAsset _ _) | ESetAssets _ => Some 2%nat
  | ESetMessage _ => Some 3%nat
  | _ => None
  end.

Fixpoint phases_from (p : nat) (l : list Event) : bool :=
  match l with
  | [] => true
  | e :: l' =>
      match phase e with
      | Some q => (p <=? q)%nat && phases_from q l'
      | None => phases_from p l'
      end
  end.

Definition claimed_order (l : list Event) : bool := phases_from 0 l.

(** ** The moves of the page

    What one statement of a handler does to the system: a call is answered,
    a cell is set.  The handlers are compared with sequences of such moves;
    [mutating] says whether the sequence may submit a transaction and set
    the busy flag, as [registerAsset] and [transferOwnership] do. *)

Section Moves.

Context {W : Type} {wallet : Wallet W} {registry : Registry.Methods W}
        {runtime : Runtime}.

(** A run that returns satisfies [Q], a run that throws satisfies [E]. *)
Definition ensures {A : Type} (m : M (Sys W) A) (s : Sys W)
           (Q : A -> Sys W -> Prop) (E : string -> Sys W -> Prop) : Prop :=
  match m s with
  | Ret a s' => Q a s'
  | Throw e s' => E e s'
  | OutOfFuel => True
  end.

(** The ids of a list of assets are [1, 2, ..], in this order. *)
Definition dense (l : list Asset) : Prop :=
  map id l = ids_upto (Z.of_nat (List.length l)).

(** The calls that send or follow a transaction. *)
Definition submits (c : Call) : bool :=
  match c with
  | CRegisterAsset _ _ _ | CTransferOwnership _ _ _ | CWait _ => true
  | _ => false
  end.

(** The setters of the six inputs. *)
Inductive form_field : Event -> (AppState -> AppState) -> Prop :=
| field_assetName (v : string) :
    form_field (ESetAssetName v) (with_assetName v)
| field_assetHash (v : string) :
    form_field (ESetAssetHash v) (with_assetHash v)
| field_verifyAssetId (v : string) :
    form_field (ESetVerifyAssetId v) (with_verifyAssetId v)
| field_verifyHash (v : string) :
    form_field (ESetVerifyHash v) (with_verifyHash v)
| field_transferAssetId (v : string) :
    form_field (ESetTransferAssetId v) (with_transferAssetId v)
| field_transferTo (v : string) :
    form_field (ESetTransferTo v) (with_transferTo v).

Inductive move (mutating : bool) : Sys W -> Sys W -> Prop :=
| move_call (c : Call) (w : W) (s : Sys W) :
    (submits c = true -> mutating = true) ->
    move mutating s (answered c w s)
| move_field (e : Event) (f : AppState -> AppState) (s : Sys W) :
    form_field e f -> move mutating s (updated e f s)
| move_message (o : Outcome) (s : Sys W) :
    move mutating s (updated (ESetMessage (text o)) (with_message (text o)) s)
| move_assets (l : list Asset) (s : Sys W) :
    dense l -> move mutating s (updated (ESetAssets l) (with_assets l) s)
| move_contract (sg : Signer) (s : Sys W) :
    signer (app s) = Some sg ->
    move mutating s
         (updated (ESetContract (mkContract CONTRACT_ADDRESS CONTRACT_ABI sg))
                  (with_contract (Some (mkContract CONTRACT_ADDRESS CONTRACT_ABI sg)))
                  s)
| move_account (a : string) (s : Sys W) :
    move mutating s (updated (ESetAccount a) (with_account a) s)
| move_wallet (sg : Signer) (address : string) (w : W) (s : Sys W) :
    move mutating s (wallet_connected sg address w s)
| move_loading (b : bool) (s : Sys W) :
    mutating = true ->
    move mutating s (updated (ESetLoading b) (with_loading b) s).

Inductive moves (mutating : bool) : Sys W -> Sys W -> Prop :=
| moves_none (s : Sys W) : moves mutating s s
| moves_more (s1 s2 s3 : Sys W) :
    moves mutating s1 s2 -> move mutating s2 s3 -> moves mutating s1 s3.

(** Every run of [h] started after moves from [s0] ends after moves from
    [s0], whether it returns or throws. *)
Definition walks (b : bool) {A : Type} (h : M (Sys W) A) : Prop :=
  forall s0 s, moves b s0 s ->
    ensures h s (fun _ s' => moves b s0 s') (fun _ s' => moves b s0 s').

(** The same, and [h] does not throw. *)
Definition lands (b : bool) {A : Type} (h : M (Sys W) A) : Prop :=
  forall s0 s, moves b s0 s ->
    ensures h s (fun _ s' => moves b s0 s') (fun _ _ => False).

(** The actions that run [registerAsset] or [transferOwnership]. *)
Definition mutation (a : Action) : bool :=
  match a with
  | Click RegisterButton | Click TransferButton => true
  | _ => false
  end.

(** The counter [i] and the list built so far, at a test of the loop of
    [loadAssets]: the list holds the ids below [i]; or the counter has
    stopped at [2^53] under a larger count. *)
Definition loop_state (count i : Z) (acc : list Asset) : Prop :=
  (1 <= i <= 2 ^ 53 /\ map id acc = ids_upto (i - 1)) \/
  (i = 2 ^ 53 /\ 2 ^ 53 <= Number_of_bigint count).

(** The reads of the catalog leave the world [w] as it is. *)
Definition reads_are_pure (c : Contract) (w : W) : Prop :=
  snd (Registry.assetCount c w) = w /\
  forall i, snd (Registry.getAsset c (Int i) w) = w.

(** What [getAsset(i)] answers in [w], as a card of the catalog. *)
Definition entry (c : Contract) (w : W) (i : Z) : option Asset :=
  match fst (Registry.getAsset c (Int i) w) with
  | Resolved (name_, hash_, owner_, timestamp_) =>
      Some (mkAsset i name_ hash_ owner_ (Number_of_bigint timestamp_))
  | Rejected _ => None
  end.

(** What holds of the cells of a page at rest. *)
Definition sound (s : Sys W) : Prop :=
  (message (app s) = "" \/ exists o, message (app s) = text o) /\
  dense (assets (app s)) /\
  (provider (app s) = None <-> signer (app s) = None) /\
  (signer (app s) = None <-> listeners s = []) /\
  (forall c, contract (app s) = Some c ->
             target c = CONTRACT_ADDRESS /\ interface c = CONTRACT_ABI /\
             signer (app s) <> None).

(** An event that neither sends nor follows a transaction nor touches the
    busy flag. *)
Definition read_only_event (e : Event) : Prop :=
  match e with
  | ECall c => submits c = false
  | ESetLoading _ => False
  | _ => True
  end.


(** The events a run from [s] to [s'] has added to the log. *)
Definition added (s s' : Sys W) : list Event :=
  skipn (List.length (log s)) (log s').

End Moves.

(** ** More pages of the session *)

Module Pages.

(** A browser without a wallet. *)
Definition no_wallet : Sys Sim.Chain :=
  boot (Sim.mkChain false [] [] [] 0 1700000000 None).


(** The page after the registration, with a transfer of asset 1 typed in. *)
Definition transfer_typed : Sys Sim.Chain :=
  Eval vm_compute in
    Sim.run (onChange TransferToField "0xBB")
            (Sim.run (onChange TransferAssetIdField "1") Sim.registered).

End Pages.

(** * Properties *)

(** Unfold the monad and the setters, leaving the calls to the world. *)
Ltac step_handler :=
  cbv beta iota delta
      [try_finally try_catch bind ret await out_of_fuel
       setState setProvider setSigner setContract setAccount setAssets
       setMessage setLoading setAssetName setAssetHash setVerifyAssetId
       setVerifyHash setTransferAssetId setTransferTo
       ethereum_detected ethereum_on];
  cbn [updated answered world log app listeners].

(** ** Numbers *)

Lemma round53_small (c : Z) : c <= 2 ^ 53 -> round53 c = c.
Proof.
  intros H. destruct (Z.eq_dec c (2 ^ 53)) as [-> | Hne].
  - vm_compute. reflexivity.
  - unfold round53. destruct (Z.ltb_spec c (2 ^ 53)); [reflexivity | lia].
Qed.

Lemma Number_of_bigint_safe (b : Z) :
  0 <= b <= MAX_SAFE_INTEGER -> Number_of_bigint b = b.
Proof.
  unfold MAX_SAFE_INTEGER, Number_of_bigint. intros H.
  destruct (Z.ltb_spec b 0); [lia |].
  apply round53_small. lia.
Qed.

Lemma incr_safe (i : Z) : i <= MAX_SAFE_INTEGER -> incr i = i + 1.
Proof.
  unfold MAX_SAFE_INTEGER, incr. intros H. apply round53_small. lia.
Qed.

(** The indices of an array are safe integers. *)
Lemma array_length_safe (n : Z) : n <= MAX_ARRAY_LENGTH -> n <= MAX_SAFE_INTEGER.
Proof. unfold MAX_ARRAY_LENGTH, MAX_SAFE_INTEGER. lia. Qed.

(** ** The loop of loadAssets *)

Section CatalogFacts.

Context {W : Type} {wallet : Wallet W} {registry : Registry.Methods W}
        {runtime : Runtime}.

Lemma seq_from_Z (i : Z) (k : nat) :
  1 <= i ->
  map Z.of_nat (seq (Z.to_nat i) (S k))
  = i :: map Z.of_nat (seq (Z.to_nat (i + 1)) k).
Proof.
  intros Hi. cbn [seq map].
  rewrite Z2Nat.id by lia.
  replace (S (Z.to_nat i)) with (Z.to_nat (i + 1)) by lia.
  reflexivity.
Qed.

(** With [k] ids left to read, all of them safe integers, and more fuel than
    that, the loop makes the reads of [read_in_order] and returns the
    assets it was given followed by the assets read, or throws the first
    failure. *)
Lemma loadAssets_for_reads (k : nat) :
  forall (fuel : nat) (c : Contract) (count i : Z) (acc : list Asset) (s : Sys W),
    Number_of_bigint count = i + Z.of_nat k - 1 ->
    1 <= i ->
    i + Z.of_nat k - 1 <= MAX_SAFE_INTEGER ->
    (k < fuel)%nat ->
    loadAssets_for fuel c count i acc s
    = let r := read_in_order c (map Z.of_nat (seq (Z.to_nat i) k)) (world s) in
      let s' := mkSys (app s) (listeners s)
                      (log s ++ map ECall (calls r))%list (world_after r) in
      match outcome r with
      | Resolved l => Ret (acc ++ l)%list s'
      | Rejected e => Throw e s'
      end.
Proof.
  induction k as [|k IH]; intros fuel c count i acc s HN Hi Hsafe Hfuel.
  - destruct fuel as [|fuel]; [lia |].
    cbn [loadAssets_for seq map read_in_order calls outcome world_after].
    rewrite HN.
    destruct (Z.leb_spec i (i + Z.of_nat 0 - 1)); [lia |].
    rewrite !app_nil_r. destruct s; reflexivity.
  - destruct fuel as [|fuel]; [lia |].
    rewrite seq_from_Z by assumption.
    cbn [loadAssets_for read_in_order].
    rewrite HN.
    destruct (Z.leb_spec i (i + Z.of_nat (S k) - 1)); [| lia].
    unfold bind at 1. unfold await at 1. unfold answered.
    destruct (fst (Registry.getAsset c (Int i) (world s))) as [[[[nm h] o] t]|e].
    + rewrite incr_safe by lia.
      rewrite (IH fuel c count (i + 1)) by lia.
      cbn [world log app listeners calls outcome world_after map].
      destruct (outcome (read_in_order c (map Z.of_nat (seq (Z.to_nat (i + 1)) k))
                                       (snd (Registry.getAsset c (Int i) (world s)))));
        rewrite <- !app_assoc; reflexivity.
    + reflexivity.
Qed.

(** [loadAssets] on a handle, in a world whose count the loop can walk:
    it returns, having done what [refresh] reads. *)
Lemma loadAssets_runs (fuel : nat) (st : AppState) (co : option Contract)
      (c : Contract) (s : Sys W) :
  match co with Some c' => Some c' | None => contract st end = Some c ->
  walkable fuel c (world s) ->
  loadAssets fuel st co s = Ret tt (refreshed (refresh c (world s)) s).
Proof.
  intros Hc Hwalk. unfold loadAssets. rewrite Hc.
  unfold walkable in Hwalk.
  unfold try_catch, refresh, refreshed. unfold bind at 1. unfold await at 1.
  unfold answered.
  destruct (fst (Registry.assetCount c (world s))) as [n|e] eqn:Hcount.
  - destruct (Hwalk n eq_refl) as [[Hn0 Hn] Hfuel].
    apply array_length_safe in Hn.
    unfold bind.
    rewrite (loadAssets_for_reads (Z.to_nat n))
      by (rewrite ?Number_of_bigint_safe by lia; cbn [world]; lia).
    cbn [world log app listeners calls outcome world_after map].
    change (Z.to_nat 1) with 1%nat. fold (ids_upto n).
    destruct (outcome (read_in_order c (ids_upto n)
                                     (snd (Registry.assetCount c (world s)))));
      unfold setAssets, setMessage, setState, updated;
      cbn [world log app listeners]; rewrite <- !app_assoc; reflexivity.
  - unfold setMessage, setState, updated.
    cbn [calls outcome world_after map app log listeners world].
    rewrite <- !app_assoc. reflexivity.
Qed.

(** The reads of [read_in_order] are the ids given, in the order given, up
    to the first failure; when none fails every id was read and the assets
    carry these ids. *)
Lemma read_in_order_calls (c : Contract) (ids : list Z) :
  forall w : W,
    exists k : nat,
      (k <= List.length ids)%nat /\
      calls (read_in_order c ids w)
      = map (fun i => CGetAsset c (Int i)) (firstn k ids) /\
      (forall l, outcome (read_in_order c ids w) = Resolved l ->
                 k = List.length ids /\ map id l = ids).
Proof.
  induction ids as [|i ids IH]; intros w.
  - exists 0%nat. cbn. split; [lia | split; [reflexivity |]].
    intros l Hl. injection Hl as <-. split; reflexivity.
  - cbn [read_in_order].
    destruct (fst (Registry.getAsset c (Int i) w)) as [[[[nm h] o] t]|e].
    + destruct (IH (snd (Registry.getAsset c (Int i) w))) as (k & Hk & Hcalls & Hall).
      exists (S k). cbn [calls outcome List.length firstn map].
      split; [lia | split; [rewrite Hcalls; reflexivity |]].
      intros l Hl.
      destruct (outcome (read_in_order c ids _)) as [l'|e]; [| discriminate].
      destruct (Hall l' eq_refl) as [-> <-].
      injection Hl as <-. split; reflexivity.
    + exists 1%nat. cbn [calls outcome List.length firstn map].
      split; [lia | split; [destruct ids; reflexivity | discriminate]].
Qed.

Lemma firstn_seq_le (k : nat) :
  forall a n : nat, (k <= n)%nat -> firstn k (seq a n) = seq a k.
Proof.
  induction k as [|k IH]; intros a n Hk; [reflexivity |].
  destruct n as [|n]; [lia |].
  cbn [seq firstn]. rewrite IH by lia. reflexivity.
Qed.

Lemma firstn_ids_upto (k : nat) (n : Z) :
  (k <= Z.to_nat n)%nat -> firstn k (ids_upto n) = ids_upto (Z.of_nat k).
Proof.
  intros Hk. unfold ids_upto.
  rewrite firstn_map, firstn_seq_le, Nat2Z.id by lia. reflexivity.
Qed.

(** C1 (catalog refresh).  Called on a contract handle [c], in a world whose
    asset count the loop can walk (a count an array can hold),
    [loadAssets] returns.  It has called
    [assetCount] and then [getAsset] on the ids [1, 2, ..] in ascending
    order, as far as [k].  When every read succeeded, [k] is the count, and
    [assets] is replaced in one [setAssets], after the last read, by the
    assets read, whose ids are [1..count].  When a read failed, nothing was
    read past it, [assets] is what it was before the call, [setAssets] was
    not called, and the message is the failure, marked as an error. *)
Theorem loadAssets_refreshes_or_keeps (fuel : nat) (st : AppState)
        (co : option Contract) (c : Contract) (s : Sys W) :
  match co with Some c' => Some c' | None => contract st end = Some c ->
  walkable fuel c (world s) ->
  exists (s' : Sys W) (k : nat),
    loadAssets fuel st co s = Ret tt s' /\
    s' = refreshed (refresh c (world s)) s /\
    calls (refresh c (world s))
    = CAssetCount c :: map (fun i => CGetAsset c (Int i)) (ids_upto (Z.of_nat k)) /\
    match outcome (refresh c (world s)) with
    | Resolved l =>
        fst (Registry.assetCount c (world s)) = Resolved (Z.of_nat k) /\
        map id l = ids_upto (Z.of_nat k) /\
        assets (app s') = l /\
        message (app s') = message (app s) /\
        log s' = (log s ++ map ECall (calls (refresh c (world s)))
                        ++ [ESetAssets l])%list
    | Rejected e =>
        assets (app s') = assets (app s) /\
        message (app s') = "❌ Error loading assets: " ++ e /\
        messageClass (message (app s')) = "error" /\
        log s' = (log s ++ map ECall (calls (refresh c (world s)))
                        ++ [ESetMessage ("❌ Error loading assets: " ++ e)])%list
    end.
Proof.
  intros Hc Hwalk.
  exists (refreshed (refresh c (world s)) s).
  rewrite (loadAssets_runs fuel st co c s Hc Hwalk).
  unfold refreshed, refresh, walkable in *.
  destruct (fst (Registry.assetCount c (world s))) as [n|e] eqn:Hcount.
  - destruct (Hwalk n eq_refl) as [Hn _].
    destruct (read_in_order_calls c (ids_upto n)
                (snd (Registry.assetCount c (world s)))) as (k & Hk & Hcalls & Hall).
    assert (Hlen : List.length (ids_upto n) = Z.to_nat n)
      by (unfold ids_upto; rewrite length_map, length_seq; reflexivity).
    rewrite Hlen in Hk.
    exists k. cbn [calls outcome world_after].
    rewrite Hcalls, firstn_ids_upto by exact Hk.
    repeat split.
    destruct (outcome (read_in_order c (ids_upto n) _)) as [l|e].
    + destruct (Hall l eq_refl) as [Hkn Hids].
      rewrite Hlen in Hkn. subst k. rewrite Z2Nat.id by lia.
      repeat split; assumption.
    + repeat split.
  - exists 0%nat. cbn [calls outcome world_after]. repeat split.
Qed.

End CatalogFacts.

(** ** The two mutations *)

Section MutationFacts.

Context {W : Type} {wallet : Wallet W} {registry : Registry.Methods W}
        {runtime : Runtime}.

Lemma registerAsset_runs (fuel : nat) (st : AppState) (c : Contract) (s : Sys W) :
  contract st = Some c ->
  (forall w', confirmed_world
                (Registry.registerAsset c (assetName st) (assetHash st)) (world s)
              = Some w' -> walkable fuel c w') ->
  registerAsset fuel st s
  = Ret tt (mutated c (CRegisterAsset c (assetName st) (assetHash st))
                    (Registry.registerAsset c (assetName st) (assetHash st))
                    "✅ Asset registered successfully!"
                    "❌ Error registering asset: " clear_register s).
Proof.
  intros Hc Hwalk. unfold registerAsset. rewrite Hc.
  unfold mutated. unfold confirmed_world in Hwalk.
  step_handler.
  destruct (fst (Registry.registerAsset c (assetName st) (assetHash st) (world s)))
    as [tx|e]; [| reflexivity].
  destruct (fst (Registry.wait tx _)) as [[]|e]; [| reflexivity].
  rewrite (loadAssets_runs fuel st (Some c) c);
    [reflexivity | reflexivity | apply Hwalk; reflexivity].
Qed.

Lemma transferOwnership_runs (fuel : nat) (st : AppState) (c : Contract)
      (s : Sys W) :
  contract st = Some c ->
  (forall w', confirmed_world
                (Registry.transferOwnership c (Number (transferAssetId st))
                                            (transferTo st)) (world s)
              = Some w' -> walkable fuel c w') ->
  transferOwnership fuel st s
  = Ret tt (mutated c (CTransferOwnership c (Number (transferAssetId st))
                                          (transferTo st))
                    (Registry.transferOwnership c (Number (transferAssetId st))
                                                (transferTo st))
                    "✅ Ownership transferred!"
                    "❌ Error transferring ownership: " clear_transfer s).
Proof.
  intros Hc Hwalk. unfold transferOwnership. rewrite Hc.
  unfold mutated. unfold confirmed_world in Hwalk.
  step_handler.
  destruct (fst (Registry.transferOwnership c (Number (transferAssetId st))
                                            (transferTo st) (world s)))
    as [tx|e]; [| reflexivity].
  destruct (fst (Registry.wait tx _)) as [[]|e]; [| reflexivity].
  rewrite (loadAssets_runs fuel st (Some c) c);
    [reflexivity | reflexivity | apply Hwalk; reflexivity].
Qed.

Lemma log_refreshed (r : Reading W) (s : Sys W) :
  log (refreshed r s) = (log s ++ refresh_events r)%list.
Proof. unfold refreshed, refresh_events. destruct (outcome r); reflexivity. Qed.

(** The log a mutation leaves, for a [clear] that only sets cells. *)
Lemma log_mutated (c : Contract) (submit : Call) (f : W -> Settled Tx * W)
      (ok prefix : string) (clear : Sys W -> Sys W) (cleared : list Event)
      (s : Sys W) :
  (forall s0, log (clear s0) = (log s0 ++ cleared)%list) ->
  (forall s0, world (clear s0) = world s0) ->
  log (mutated c submit f ok prefix clear s)
  = (log s ++ mutation_events c submit f ok prefix cleared (world s))%list.
Proof.
  intros Hlog Hworld. unfold mutated, mutation_events, caught.
  cbn [updated answered world log app listeners].
  destruct (fst (f (world s))) as [tx|e].
  - destruct (fst (Registry.wait tx (snd (f (world s))))) as [[]|e].
    + cbn [updated log]. rewrite log_refreshed, Hlog, Hworld.
      cbn [updated answered world log].
      repeat (rewrite <- app_assoc; cbn [List.app]). reflexivity.
    + cbn [updated answered world log].
      repeat (rewrite <- app_assoc; cbn [List.app]). reflexivity.
  - cbn [updated answered world log].
    repeat (rewrite <- app_assoc; cbn [List.app]). reflexivity.
Qed.

Lemma loading_mutated (c : Contract) (submit : Call) (f : W -> Settled Tx * W)
      (ok prefix : string) (clear : Sys W -> Sys W) (s : Sys W) :
  loading (app (mutated c submit f ok prefix clear s)) = false.
Proof.
  unfold mutated, caught.
  destruct (fst (f (world s))) as [tx|e]; [| reflexivity].
  destruct (fst (Registry.wait tx _)) as [[]|e]; reflexivity.
Qed.

(** C2 (order of the steps of a mutation), as the code has it.  With a
    contract bound, [registerAsset] and [transferOwnership] return, and
    what each has done is, in this order: set the busy flag; submit; if
    the submission was accepted, wait for the transaction; if it was
    confirmed, set the success message and empty the form, and only then
    refresh the catalog ([assetCount], the reads, one setter); last, clear
    the busy flag.  A rejected submission or wait is followed by the error
    message and the clearing of the flag alone. *)
Theorem mutation_steps_in_order (fuel : nat) (st : AppState) (c : Contract)
        (s : Sys W) :
  contract st = Some c ->
  (forall w', confirmed_world
                (Registry.registerAsset c (assetName st) (assetHash st)) (world s)
              = Some w' -> walkable fuel c w') ->
  (forall w', confirmed_world
                (Registry.transferOwnership c (Number (transferAssetId st))
                                            (transferTo st)) (world s)
              = Some w' -> walkable fuel c w') ->
  (exists s',
      registerAsset fuel st s = Ret tt s' /\
      log s' = (log s ++ mutation_events c
                  (CRegisterAsset c (assetName st) (assetHash st))
                  (Registry.registerAsset c (assetName st) (assetHash st))
                  "✅ Asset registered successfully!"
                  "❌ Error registering asset: "
                  [ESetAssetName ""; ESetAssetHash ""] (world s))%list) /\
  (exists s',
      transferOwnership fuel st s = Ret tt s' /\
      log s' = (log s ++ mutation_events c
                  (CTransferOwnership c (Number (transferAssetId st)) (transferTo st))
                  (Registry.transferOwnership c (Number (transferAssetId st))
                                              (transferTo st))
                  "✅ Ownership transferred!"
                  "❌ Error transferring ownership: "
                  [ESetTransferAssetId ""; ESetTransferTo ""] (world s))%list).
Proof.
  intros Hc Hreg Htr. split.
  - eexists. split; [apply registerAsset_runs; eassumption |].
    apply log_mutated; intros s0; [| reflexivity].
    unfold clear_register. cbn [updated log].
    rewrite <- app_assoc. reflexivity.
  - eexists. split; [apply transferOwnership_runs; eassumption |].
    apply log_mutated; intros s0; [| reflexivity].
    unfold clear_transfer. cbn [updated log].
    rewrite <- app_assoc. reflexivity.
Qed.

(** A [try] whose [catch] only sets the message and whose [finally] clears
    the busy flag never throws, and leaves the flag cleared when it
    returns. *)
Lemma guarded_returns_idle (body : M (Sys W) unit) (prefix : string) (s : Sys W) :
  match try_finally (try_catch body (fun e => setMessage (prefix ++ e)))
                    (setLoading false) s with
  | Ret _ s' => loading (app s') = false
  | Throw _ _ => False
  | OutOfFuel => True
  end.
Proof.
  unfold try_finally, try_catch.
  destruct (body s) as [[] s'|e s'|]; step_handler; [reflexivity | reflexivity | exact I].
Qed.

(** C4 (the busy flag is cleared on every return).  Take any state in
    which the flag is not set without a contract.  Whatever the world
    answers (a rejected submission, a failed wait, a failed refresh),
    [registerAsset] and [transferOwnership] never throw, and whenever they
    return [loading] is [false]; and they do return when the loop of the
    refresh can walk the count. *)
Theorem mutation_returns_idle (fuel : nat) (st : AppState) (s : Sys W) :
  (contract st = None -> loading (app s) = false) ->
  (forall c w',
      contract st = Some c ->
      confirmed_world (Registry.registerAsset c (assetName st) (assetHash st))
                      (world s) = Some w' ->
      walkable fuel c w') ->
  (forall c w',
      contract st = Some c ->
      confirmed_world (Registry.transferOwnership c (Number (transferAssetId st))
                                                  (transferTo st))
                      (world s) = Some w' ->
      walkable fuel c w') ->
  (exists s', registerAsset fuel st s = Ret tt s' /\ loading (app s') = false) /\
  (exists s', transferOwnership fuel st s = Ret tt s' /\ loading (app s') = false) /\
  (forall fuel',
      match registerAsset fuel' st s with
      | Ret _ s' => loading (app s') = false
      | Throw _ _ => False
      | OutOfFuel => True
      end) /\
  (forall fuel',
      match transferOwnership fuel' st s with
      | Ret _ s' => loading (app s') = false
      | Throw _ _ => False
      | OutOfFuel => True
      end).
Proof.
  intros Hidle Hreg Htr.
  destruct (contract st) as [c|] eqn:Hc.
  - split; [| split; [| split]].
    + eexists. split.
      * apply registerAsset_runs; [exact Hc | intros w'; apply Hreg; reflexivity].
      * apply loading_mutated.
    + eexists. split.
      * apply transferOwnership_runs; [exact Hc | intros w'; apply Htr; reflexivity].
      * apply loading_mutated.
    + intros fuel'. unfold registerAsset. rewrite Hc. apply guarded_returns_idle.
    + intros fuel'. unfold transferOwnership. rewrite Hc. apply guarded_returns_idle.
  - unfold registerAsset, transferOwnership. rewrite Hc.
    split; [| split; [| split]].
    + exists s. split; [reflexivity | apply Hidle; reflexivity].
    + exists s. split; [reflexivity | apply Hidle; reflexivity].
    + intros _. apply Hidle; reflexivity.
    + intros _. apply Hidle; reflexivity.
Qed.

(** C6 (no validation before submission), as the code has it.  With a
    contract bound, whatever the form holds, [registerAsset] submits the
    name and hash as they are and [transferOwnership] submits
    [Number(transferAssetId)] and the address as they are: the submission is
    the first call made, right after the busy flag is set.  When the
    submission is rejected, no other call is made, the catalog is left as it
    was and the message is the error, prefixed and marked as an error. *)
Theorem mutation_submits_unchecked (fuel : nat) (st : AppState) (c : Contract)
        (s : Sys W) :
  contract st = Some c ->
  (forall w', confirmed_world
                (Registry.registerAsset c (assetName st) (assetHash st)) (world s)
              = Some w' -> walkable fuel c w') ->
  (forall w', confirmed_world
                (Registry.transferOwnership c (Number (transferAssetId st))
                                            (transferTo st)) (world s)
              = Some w' -> walkable fuel c w') ->
  (exists s' rest,
      registerAsset fuel st s = Ret tt s' /\
      log s' = (log s ++ ESetLoading true
                      :: ECall (CRegisterAsset c (assetName st) (assetHash st))
                      :: rest)%list /\
      (forall e,
          fst (Registry.registerAsset c (assetName st) (assetHash st) (world s))
          = Rejected e ->
          rest = [ESetMessage ("❌ Error registering asset: " ++ e);
                  ESetLoading false] /\
          message (app s') = "❌ Error registering asset: " ++ e /\
          messageClass (message (app s')) = "error" /\
          assets (app s') = assets (app s))) /\
  (exists s' rest,
      transferOwnership fuel st s = Ret tt s' /\
      log s' = (log s ++ ESetLoading true
                      :: ECall (CTransferOwnership c (Number (transferAssetId st))
                                                   (transferTo st))
                      :: rest)%list /\
      (forall e,
          fst (Registry.transferOwnership c (Number (transferAssetId st))
                                          (transferTo st) (world s))
          = Rejected e ->
          rest = [ESetMessage ("❌ Error transferring ownership: " ++ e);
                  ESetLoading false] /\
          message (app s') = "❌ Error transferring ownership: " ++ e /\
          messageClass (message (app s')) = "error" /\
          assets (app s') = assets (app s))).
Proof.
  intros Hc Hreg Htr. split.
  - eexists. eexists. split; [apply registerAsset_runs; eassumption |].
    split.
    + rewrite (log_mutated _ _ _ _ _ _ [ESetAssetName ""; ESetAssetHash ""]).
      * unfold mutation_events. reflexivity.
      * intros s0. unfold clear_register. cbn [updated log].
        rewrite <- app_assoc. reflexivity.
      * reflexivity.
    + intros e He. unfold mutated. rewrite He.
      repeat split.
  - eexists. eexists. split; [apply transferOwnership_runs; eassumption |].
    split.
    + rewrite (log_mutated _ _ _ _ _ _ [ESetTransferAssetId ""; ESetTransferTo ""]).
      * unfold mutation_events. reflexivity.
      * intros s0. unfold clear_transfer. cbn [updated log].
        rewrite <- app_assoc. reflexivity.
      * reflexivity.
    + intros e He. unfold mutated. rewrite He.
      repeat split.
Qed.

End MutationFacts.

(** ** Guards, the account listener, the status line *)

Section HandlerFacts.

Context {W : Type} {wallet : Wallet W} {registry : Registry.Methods W}
        {runtime : Runtime}.

(** C3 (a second mutation while busy), as the code has it.  While [loading]
    is set the Register and Transfer buttons are disabled, and a click on
    them dispatches nothing: no call is made, no cell changes, the catalog
    and the message are what they were, and nothing is reported. *)
Theorem busy_click_does_nothing (fuel : nat) (b : Button) (s : Sys W) :
  b = RegisterButton \/ b = TransferButton ->
  loading (app s) = true ->
  disabled b (app s) = true /\ click fuel b s = Ret tt s.
Proof.
  intros Hb Hbusy.
  assert (Hd : disabled b (app s) = true).
  { destruct Hb as [-> | ->]; cbn [disabled]; rewrite Hbusy; apply orb_true_r. }
  split; [exact Hd |]. unfold click. rewrite Hd. reflexivity.
Qed.

(** C8 (operations without a contract), as the code has it.  While no
    contract is bound, [registerAsset], [transferOwnership], [verifyAsset]
    and [loadAssets] return at once: no call is made, no cell changes and
    nothing is reported; their four buttons are disabled.  Only
    [connectContract], called without a signer, says so: it sets the
    message to the warning and makes no call. *)
Theorem unbound_handlers_return_silently (fuel : nat) (st : AppState) (s : Sys W) :
  contract st = None ->
  registerAsset fuel st s = Ret tt s /\
  transferOwnership fuel st s = Ret tt s /\
  verifyAsset st s = Ret tt s /\
  loadAssets fuel st None s = Ret tt s /\
  disabled RegisterButton st = true /\
  disabled TransferButton st = true /\
  disabled VerifyButton st = true /\
  disabled RefreshButton st = true /\
  match signer st with
  | None =>
      connectContract fuel st s
      = Ret tt (updated (ESetMessage "⚠️ Connect wallet first!")
                        (with_message "⚠️ Connect wallet first!") s)
  | Some _ => True
  end.
Proof.
  intros Hc.
  unfold registerAsset, transferOwnership, verifyAsset, loadAssets,
    connectContract, disabled.
  rewrite Hc. destruct (signer st); repeat split.
Qed.

(** Every listener sets the account to the same value: the cells after
    [n] of them are the cells after one. *)
Lemma run_listeners_runs (accounts : list string) (ls : list Listener) :
  forall s : Sys W,
    run_listeners ls accounts s
    = Ret tt (mkSys
                (match ls with
                 | [] => app s
                 | _ :: _ => with_account (or_else (nth_error accounts 0) "") (app s)
                 end)
                (listeners s)
                (log s ++ repeat (ESetAccount (or_else (nth_error accounts 0) ""))
                                 (List.length ls))%list
                (world s)).
Proof.
  induction ls as [|l ls IH]; intros s.
  - cbn. rewrite app_nil_r. destruct s; reflexivity.
  - cbn [run_listeners]. destruct l. unfold bind, run_listener.
    unfold setAccount at 1. unfold setState at 1.
    rewrite IH. cbn [updated app listeners log world List.length repeat].
    rewrite <- app_assoc. destruct ls; reflexivity.
Qed.

Lemma first_or_empty (accounts : list string) :
  or_else (nth_error accounts 0) "" = hd "" accounts.
Proof.
  destruct accounts as [|a accounts]; [reflexivity |].
  cbn. destruct (String.eqb_spec a ""); congruence.
Qed.

(** C9 (the wallet reports its accounts), as the code has it.  Once a
    listener is registered, an [accountsChanged] event with the list
    [accounts] sets [account] to the first entry, or to the empty string
    when the list is empty, and does nothing else: the signer, the contract
    handle and the cached assets are what they were, no call is made, and
    the log only gains [setAccount]s.  With the empty list the page shows
    "Not connected". *)
Theorem accountsChanged_sets_account_only (accounts : list string) (s : Sys W) :
  listeners s <> [] ->
  exists s',
    accountsChanged accounts s = Ret tt s' /\
    account (app s') = hd "" accounts /\
    app s' = with_account (hd "" accounts) (app s) /\
    provider (app s') = provider (app s) /\
    signer (app s') = signer (app s) /\
    contract (app s') = contract (app s) /\
    assets (app s') = assets (app s) /\
    listeners s' = listeners s /\
    world s' = world s /\
    log s' = (log s ++ repeat (ESetAccount (hd "" accounts))
                              (List.length (listeners s)))%list /\
    match accounts with
    | [] => account (app s') = "" /\ accountLine (app s') = "Account: Not connected"
    | first :: _ => account (app s') = first
    end.
Proof.
  intros Hls. eexists. split.
  - unfold accountsChanged. apply run_listeners_runs.
  - rewrite first_or_empty. destruct (listeners s); [congruence |].
    cbn [app listeners log world]. destruct accounts; repeat split.
Qed.

(** [includes] finds the needle exactly when it occurs at some position. *)
Lemma includes_occurs (needle s : string) :
  needle <> "" ->
  includes needle s = true
  <-> exists p : nat, substring p (String.length needle) s = needle.
Proof.
  intros Hne. unfold includes.
  destruct (String.index 0 needle s) as [m|] eqn:Hidx.
  - split; [intros _ | reflexivity].
    exists m. eapply index_correct1. exact Hidx.
  - split; [discriminate |]. intros [p Hp]. exfalso.
    apply (index_correct3 0 p needle s Hidx Hne); [lia | exact Hp].
Qed.

(** C5 (severity of the displayed message), as the code has it.  The class
    of the status line is computed from the text of the message: it is
    [error] when the text contains the cross mark and [success] otherwise.
    So every message set in a [catch] block is shown as an error whatever
    the text of the error, every completion message is shown as a success,
    and a hash mismatch is shown as an error. *)
Theorem severity_reads_the_text :
  (forall m,
      (messageClass m = "error"
       <-> exists p : nat, substring p (String.length "❌") m = "❌") /\
      (messageClass m = "error" \/ messageClass m = "success")) /\
  (forall o, caught_error o = true -> messageClass (text o) = "error") /\
  (forall o, completed o = true -> messageClass (text o) = "success") /\
  messageClass (text HashMismatch) = "error".
Proof.
  split; [| split; [| split; [| reflexivity]]].
  - intros m. rewrite <- includes_occurs by discriminate.
    unfold messageClass. destruct (includes "❌" m).
    + split; [split; reflexivity | left; reflexivity].
    + split; [split; discriminate | right; reflexivity].
  - intros [] H; try discriminate H; reflexivity.
  - intros [] H; try discriminate H; reflexivity.
Qed.

End HandlerFacts.

(** ** What the handlers leave behind *)

Section Logic.

Context {W : Type} {wallet : Wallet W} {registry : Registry.Methods W}
        {runtime : Runtime}.

Variable P : Event -> Prop.

Lemma quiet_refl (s : Sys W) : quiet P s s.
Proof. split; [reflexivity |]. exists []. rewrite app_nil_r. auto. Qed.

Lemma quiet_trans (s1 s2 s3 : Sys W) :
  quiet P s1 s2 -> quiet P s2 s3 -> quiet P s1 s3.
Proof.
  intros [Hl1 (e1 & He1 & HP1)] [Hl2 (e2 & He2 & HP2)]. split; [congruence |].
  exists (e1 ++ e2)%list. rewrite He2, He1, app_assoc.
  split; [reflexivity | apply Forall_app; auto].
Qed.

Lemma quiet_updated (e : Event) (f : AppState -> AppState) (s : Sys W) :
  P e -> quiet P s (updated e f s).
Proof. intros He. split; [reflexivity |]. exists [e]. auto. Qed.

Lemma quiet_answered (c : Call) (w : W) (s : Sys W) :
  P (ECall c) -> quiet P s (answered c w s).
Proof. intros He. split; [reflexivity |]. exists [ECall c]. auto. Qed.

Lemma keeps_ret {A : Type} (a : A) : keeps (W := W) P (ret a).
Proof. intros s. apply quiet_refl. Qed.

Lemma keeps_out_of_fuel {A : Type} : keeps (W := W) P (@out_of_fuel (Sys W) A).
Proof. intros s. exact I. Qed.

Lemma keeps_bind {A B : Type} (m : M (Sys W) A) (k : A -> M (Sys W) B) :
  keeps (W := W) P m -> (forall a, keeps (W := W) P (k a)) -> keeps (W := W) P (bind m k).
Proof.
  intros Hm Hk s. specialize (Hm s). unfold after_run, bind in *.
  destruct (m s) as [a s1|e s1|]; [| exact Hm | exact I].
  specialize (Hk a s1). unfold after_run in Hk.
  destruct (k a s1); eauto using quiet_trans.
Qed.

Lemma keeps_try_catch {A : Type} (body : M (Sys W) A)
      (handler : string -> M (Sys W) A) :
  keeps (W := W) P body -> (forall e, keeps (W := W) P (handler e)) ->
  keeps (W := W) P (try_catch body handler).
Proof.
  intros Hm Hk s. specialize (Hm s). unfold after_run, try_catch in *.
  destruct (body s) as [a s1|e s1|]; [exact Hm | | exact I].
  specialize (Hk e s1). unfold after_run in Hk.
  destruct (handler e s1); eauto using quiet_trans.
Qed.

Lemma keeps_try_finally {A : Type} (body : M (Sys W) A)
      (finalizer : M (Sys W) unit) :
  keeps (W := W) P body -> keeps (W := W) P finalizer -> keeps (W := W) P (try_finally body finalizer).
Proof.
  intros Hm Hf s. specialize (Hm s). unfold after_run, try_finally, bind, ret in *.
  destruct (body s) as [a s1|e s1|]; [| | exact I];
    specialize (Hf s1); unfold after_run in Hf;
    destruct (finalizer s1); eauto using quiet_trans.
Qed.

Lemma keeps_setState (e : Event) (f : AppState -> AppState) :
  P e -> keeps (W := W) P (setState e f).
Proof. intros He s. apply quiet_updated, He. Qed.

Lemma keeps_await {A : Type} (c : Call) (f : W -> Settled A * W) :
  P (ECall c) -> keeps (W := W) P (await c f).
Proof.
  intros He s. unfold after_run, await.
  destruct (fst (f (world s))); apply quiet_answered, He.
Qed.

End Logic.

(** The handlers other than [connectWallet] register no listener and log
    only events of [handler_event]. *)

Section Quiet.

Context {W : Type} {wallet : Wallet W} {registry : Registry.Methods W}
        {runtime : Runtime}.

Lemma handler_event_message (o : Outcome) :
  from_wallet o = false -> handler_event (ESetMessage (text o)).
Proof. intros Ho. exists o. auto. Qed.

Lemma keeps_setMessage (o : Outcome) :
  from_wallet o = false -> keeps (W := W) handler_event (setMessage (text o)).
Proof. intros Ho. apply keeps_setState, handler_event_message, Ho. Qed.

Lemma keeps_loadAssets_for (fuel : nat) :
  forall c count i acc,
    keeps (W := W) handler_event (loadAssets_for fuel c count i acc).
Proof.
  induction fuel as [|fuel IH]; intros c count i acc; cbn [loadAssets_for].
  - apply keeps_out_of_fuel.
  - destruct (i <=? Number_of_bigint count); [| apply keeps_ret].
    apply keeps_bind; [apply keeps_await; exact I |].
    intros [[[nm h] o] t]. apply IH.
Qed.

Lemma keeps_loadAssets (fuel : nat) (st : AppState) (co : option Contract) :
  keeps (W := W) handler_event (loadAssets fuel st co).
Proof.
  unfold loadAssets.
  destruct (match co with Some c' => Some c' | None => contract st end);
    [| apply keeps_ret].
  apply keeps_try_catch.
  - apply keeps_bind; [apply keeps_await; exact I | intros count].
    apply keeps_bind; [apply keeps_loadAssets_for | intros l].
    apply keeps_setState. exact I.
  - intros e. apply (keeps_setMessage (LoadError e)). reflexivity.
Qed.

Lemma keeps_connectContract (fuel : nat) (st : AppState) :
  keeps (W := W) handler_event (connectContract fuel st).
Proof.
  unfold connectContract. destruct (signer st).
  - apply keeps_try_catch.
    + apply keeps_bind; [apply keeps_setState; exact I | intros _].
      apply keeps_bind;
        [apply (keeps_setMessage ContractConnected); reflexivity | intros _].
      apply keeps_loadAssets.
    + intros e. apply (keeps_setMessage (ContractError e)). reflexivity.
  - apply (keeps_setMessage NoSigner). reflexivity.
Qed.

Lemma keeps_registerAsset (fuel : nat) (st : AppState) :
  keeps (W := W) handler_event (registerAsset fuel st).
Proof.
  unfold registerAsset. destruct (contract st); [| apply keeps_ret].
  apply keeps_try_finally; [| apply keeps_setState; exact I].
  apply keeps_try_catch.
  - apply keeps_bind; [apply keeps_setState; exact I | intros _].
    apply keeps_bind; [apply keeps_await; exact I | intros tx].
    apply keeps_bind; [apply keeps_await; exact I | intros _].
    apply keeps_bind; [apply (keeps_setMessage Registered); reflexivity | intros _].
    apply keeps_bind; [apply keeps_setState; exact I | intros _].
    apply keeps_bind; [apply keeps_setState; exact I | intros _].
    apply keeps_loadAssets.
  - intros e. apply (keeps_setMessage (RegisterError e)). reflexivity.
Qed.

Lemma keeps_transferOwnership (fuel : nat) (st : AppState) :
  keeps (W := W) handler_event (transferOwnership fuel st).
Proof.
  unfold transferOwnership. destruct (contract st); [| apply keeps_ret].
  apply keeps_try_finally; [| apply keeps_setState; exact I].
  apply keeps_try_catch.
  - apply keeps_bind; [apply keeps_setState; exact I | intros _].
    apply keeps_bind; [apply keeps_await; exact I | intros tx].
    apply keeps_bind; [apply keeps_await; exact I | intros _].
    apply keeps_bind; [apply (keeps_setMessage Transferred); reflexivity | intros _].
    apply keeps_bind; [apply keeps_setState; exact I | intros _].
    apply keeps_bind; [apply keeps_setState; exact I | intros _].
    apply keeps_loadAssets.
  - intros e. apply (keeps_setMessage (TransferError e)). reflexivity.
Qed.

Lemma keeps_verifyAsset (st : AppState) :
  keeps (W := W) handler_event (verifyAsset st).
Proof.
  unfold verifyAsset. destruct (contract st); [| apply keeps_ret].
  apply keeps_try_catch.
  - apply keeps_bind; [apply keeps_await; exact I | intros valid].
    destruct valid;
      [apply (keeps_setMessage HashValid) | apply (keeps_setMessage HashMismatch)];
      reflexivity.
  - intros e. apply (keeps_setMessage (VerifyError e)). reflexivity.
Qed.

Lemma keeps_onChange (f : Field) (v : string) :
  keeps (W := W) handler_event (onChange f v).
Proof. destruct f; apply keeps_setState; exact I. Qed.

Lemma keeps_accountsChanged (accounts : list string) :
  keeps (W := W) handler_event (accountsChanged accounts).
Proof.
  intros s. unfold after_run, accountsChanged. rewrite run_listeners_runs.
  split; [reflexivity |]. eexists. split; [reflexivity |].
  apply Forall_forall. intros e He. apply repeat_spec in He. subst e. exact I.
Qed.

End Quiet.

(** ** Listeners *)

Section ListenerFacts.

Context {W : Type} {wallet : Wallet W} {registry : Registry.Methods W}
        {runtime : Runtime}.

Lemma connectWallet_runs (s : Sys W) :
  connectWallet s
  = Ret tt
      (if negb (window_ethereum (world s)) then
         updated (ESetMessage (text NoWallet)) (with_message (text NoWallet)) s
       else
         match fst (getSigner (world s)) with
         | Rejected e =>
             updated (ESetMessage (text (WalletError e)))
                     (with_message (text (WalletError e)))
                     (answered CGetSigner (snd (getSigner (world s))) s)
         | Resolved sg =>
             match fst (getAddress sg (snd (getSigner (world s)))) with
             | Rejected e =>
                 updated (ESetMessage (text (WalletError e)))
                         (with_message (text (WalletError e)))
                         (answered (CGetAddress sg)
                            (snd (getAddress sg (snd (getSigner (world s)))))
                            (answered CGetSigner (snd (getSigner (world s))) s))
             | Resolved address =>
                 wallet_connected sg address
                   (snd (getAddress sg (snd (getSigner (world s))))) s
             end
         end).
Proof.
  unfold connectWallet. step_handler.
  destruct (negb (window_ethereum (world s))); [reflexivity |].
  destruct (fst (getSigner (world s))) as [sg|e]; [| reflexivity].
  destruct (fst (getAddress sg _)) as [address|e]; [| reflexivity].
  unfold wallet_connected, updated, answered.
  cbn [text world log app listeners].
  repeat (rewrite <- app_assoc; cbn [List.app]). reflexivity.
Qed.

Lemma connections_app (l1 l2 : list Event) :
  connections (l1 ++ l2) = (connections l1 + connections l2)%nat.
Proof. unfold connections. rewrite filter_app, length_app. reflexivity. Qed.

Lemma handler_event_no_connection (e : Event) :
  handler_event e -> is_connection e = false.
Proof.
  destruct e; try reflexivity. intros (o & Ho & ->).
  destruct o; try discriminate Ho; reflexivity.
Qed.

Lemma handler_event_reported (e : Event) : handler_event e -> reported e.
Proof.
  destruct e; try (intros _; exact I). intros (o & _ & ->). exists o. reflexivity.
Qed.

Lemma no_connections (evs : list Event) :
  Forall handler_event evs -> connections evs = 0%nat.
Proof.
  induction 1 as [|e evs He _ IH]; [reflexivity |].
  unfold connections in *. cbn [filter].
  rewrite (handler_event_no_connection e He). exact IH.
Qed.

Lemma advances_refl (s : Sys W) : advances s s.
Proof.
  exists 0%nat. cbn [repeat]. rewrite app_nil_r, Nat.add_0_r.
  split; [reflexivity | split; [reflexivity |]].
  exists []. rewrite app_nil_r. auto.
Qed.

Lemma quiet_advances (s s' : Sys W) : quiet handler_event s s' -> advances s s'.
Proof.
  intros [Hl (evs & Hlog & Hevs)]. exists 0%nat. cbn [repeat].
  rewrite app_nil_r, Nat.add_0_r, Hlog, connections_app, (no_connections evs Hevs).
  split; [exact Hl | split; [lia |]].
  exists evs. split; [reflexivity |].
  eapply Forall_impl; [apply handler_event_reported | exact Hevs].
Qed.

Lemma keeps_advances {A : Type} (m : M (Sys W) A) (s : Sys W) :
  keeps handler_event m -> after_run m s (advances s).
Proof.
  intros Hm. specialize (Hm s). unfold after_run in *.
  destruct (m s); auto using quiet_advances.
Qed.

(** A message of [connectWallet] other than the success is no connection. *)
Lemma wallet_failure_advances (o : Outcome) (s0 s : Sys W) :
  from_wallet o = true -> o <> WalletConnected ->
  quiet (fun e => is_connection e = false /\ reported e) s0 s ->
  advances s0 (updated (ESetMessage (text o)) (with_message (text o)) s).
Proof.
  intros Ho Hne [Hl (evs & Hlog & Hevs)]. exists 0%nat.
  cbn [updated listeners log repeat].
  rewrite app_nil_r, Nat.add_0_r, Hlog, !connections_app.
  assert (Hzero : connections evs = 0%nat).
  { clear Hlog. induction Hevs as [|e evs [He _] _ IH]; [reflexivity |].
    unfold connections in *. cbn [filter]. rewrite He. exact IH. }
  assert (Hmsg : connections [ESetMessage (text o)] = 0%nat).
  { unfold connections. cbn [filter is_connection].
    destruct o; try discriminate Ho; try congruence; reflexivity. }
  rewrite Hzero, Hmsg.
  split; [exact Hl | split; [lia |]].
  exists (evs ++ [ESetMessage (text o)])%list.
  rewrite app_assoc. split; [reflexivity |].
  apply Forall_app. split.
  - eapply Forall_impl; [| exact Hevs]. intros e [_ He]. exact He.
  - constructor; [exists o; reflexivity | constructor].
Qed.

Lemma connectWallet_advances (s : Sys W) : after_run connectWallet s (advances s).
Proof.
  unfold after_run. rewrite connectWallet_runs.
  destruct (negb (window_ethereum (world s))).
  - apply (wallet_failure_advances NoWallet); [reflexivity | discriminate |].
    apply quiet_refl.
  - destruct (fst (getSigner (world s))) as [sg|e].
    + destruct (fst (getAddress sg _)) as [address|e].
      * exists 1%nat. unfold wallet_connected. cbn [listeners log repeat].
        rewrite connections_app.
        split; [reflexivity | split; [reflexivity |]].
        eexists. split; [reflexivity |].
        repeat constructor. exists WalletConnected. reflexivity.
      * apply (wallet_failure_advances (WalletError e));
          [reflexivity | discriminate |].
        eapply quiet_trans; [apply quiet_answered | apply quiet_answered];
          (split; [reflexivity | exact I]).
    + apply (wallet_failure_advances (WalletError e));
        [reflexivity | discriminate |].
      apply quiet_answered. split; [reflexivity | exact I].
Qed.

Lemma perform_advances (fuel : nat) (a : Action) (s : Sys W) :
  after_run (perform fuel a) s (advances s).
Proof.
  destruct a as [|b|f v|accounts]; cbn [perform].
  - unfold useEffect_mount, bind, ethereum_detected.
    unfold after_run. destruct (window_ethereum (world s)).
    + apply connectWallet_advances.
    + apply advances_refl.
  - unfold click, after_run. destruct (disabled b (app s)); [apply advances_refl |].
    destruct b; cbn [onClick].
    + apply connectWallet_advances.
    + apply keeps_advances, keeps_connectContract.
    + apply keeps_advances, keeps_registerAsset.
    + apply keeps_advances, keeps_transferOwnership.
    + apply keeps_advances, keeps_verifyAsset.
    + apply keeps_advances, keeps_loadAssets.
  - apply keeps_advances, keeps_onChange.
  - apply keeps_advances, keeps_accountsChanged.
Qed.

(** On every reachable page there are as many listeners as connections in
    the log. *)
Lemma reachable_listeners (s : Sys W) :
  reachable s -> List.length (listeners s) = connections (log s).
Proof.
  induction 1 as [w | s w _ IH | s s' fuel a _ IH Hrun | s s' fuel a e _ IH Hrun].
  - reflexivity.
  - exact IH.
  - pose proof (perform_advances fuel a s) as Hadv.
    unfold after_run in Hadv. rewrite Hrun in Hadv.
    destruct Hadv as (k & Hl & Hc & _).
    rewrite Hl, Hc, length_app, repeat_length, IH. reflexivity.
  - pose proof (perform_advances fuel a s) as Hadv.
    unfold after_run in Hadv. rewrite Hrun in Hadv.
    destruct Hadv as (k & Hl & Hc & _).
    rewrite Hl, Hc, length_app, repeat_length, IH. reflexivity.
Qed.

(** C10 (listeners pile up).  On any page reached from the first render:
    there are as many registered listeners as successful [connectWallet]
    calls so far; a successful [connectWallet] adds one more and no action
    removes any; and one [accountsChanged] event runs the handler once per
    listener, that is once per successful connection. *)
Theorem listeners_accumulate (s : Sys W) :
  reachable s ->
  List.length (listeners s) = connections (log s) /\
  (forall s',
      connectWallet s = Ret tt s' ->
      message (app s') = text WalletConnected ->
      listeners s' = (listeners s ++ [OnAccountsChanged])%list /\
      connections (log s') = S (connections (log s))) /\
  (forall fuel a s',
      perform fuel a s = Ret tt s' ->
      exists more, listeners s' = (listeners s ++ more)%list) /\
  (forall accounts,
      exists s',
        accountsChanged accounts s = Ret tt s' /\
        log s' = (log s ++ repeat (ESetAccount (hd "" accounts))
                                  (connections (log s)))%list).
Proof.
  intros Hreach. pose proof (reachable_listeners s Hreach) as Hinv.
  split; [exact Hinv | split; [| split]].
  - intros s' Hrun Hmsg. rewrite connectWallet_runs in Hrun.
    injection Hrun as <-.
    destruct (negb (window_ethereum (world s))); [discriminate Hmsg |].
    destruct (fst (getSigner (world s))) as [sg|e].
    + destruct (fst (getAddress sg _)) as [address|e].
      * unfold wallet_connected. cbn [listeners log].
        rewrite connections_app. split; [reflexivity |].
        cbn. lia.
      * exfalso. cbn in Hmsg. apply String.eqb_eq in Hmsg. discriminate Hmsg.
    + exfalso. cbn in Hmsg. apply String.eqb_eq in Hmsg. discriminate Hmsg.
  - intros fuel a s' Hrun. pose proof (perform_advances fuel a s) as Hadv.
    unfold after_run in Hadv. rewrite Hrun in Hadv.
    destruct Hadv as (k & Hl & _). eauto.
  - intros accounts. eexists. split.
    + unfold accountsChanged. apply run_listeners_runs.
    + cbn [log]. rewrite first_or_empty, Hinv. reflexivity.
Qed.

End ListenerFacts.

(** ** Against the simulated registry *)

Lemma stored_in_range (i : Z) (w : Sim.Chain) :
  Sim.stored i w <> None <-> 1 <= i <= Sim.assetCount_of w.
Proof.
  unfold Sim.stored, Sim.in_range, Sim.assetCount_of.
  destruct (Z.leb_spec 1 i); destruct (Z.leb_spec i (Z.of_nat (List.length (Sim.registry w))));
    cbn [andb]; try (split; [congruence | lia]).
  rewrite nth_error_Some. split; lia.
Qed.

(** C7 (verifying a hash).  In front of the registry of the specification,
    with a contract bound, the network up and [Number(verifyAssetId)] the
    integer [i]: [verifyAsset] makes the one call [verifyAsset(i, hash)]
    and changes neither the registry nor the catalog.  For [i] in
    [[1, assetCount]] it reports a valid hash exactly when the hash typed
    equals the stored hash of asset [i], and a mismatch otherwise.  For [i]
    outside it reports the error of the call, not a mismatch. *)
Theorem verifyAsset_compares_stored_hash {rt : Runtime} (st : AppState)
        (c : Contract) (s : Sys Sim.Chain) (i : Z) :
  contract st = Some c ->
  @Number rt (verifyAssetId st) = Int i ->
  Sim.outage (world s) = None ->
  exists s',
    verifyAsset (runtime := rt) st s = Ret tt s' /\
    world s' = world s /\
    assets (app s') = assets (app s) /\
    log s' = (log s ++ [ECall (CVerifyAsset c (Int i) (verifyHash st));
                        ESetMessage (message (app s'))])%list /\
    match Sim.stored i (world s) with
    | Some (_, stored_hash, _, _) =>
        1 <= i <= Sim.assetCount_of (world s) /\
        (message (app s') = text HashValid <-> verifyHash st = stored_hash) /\
        (message (app s') = text HashMismatch <-> verifyHash st <> stored_hash)
    | None =>
        ~ (1 <= i <= Sim.assetCount_of (world s)) /\
        message (app s') = text (VerifyError "execution reverted") /\
        tag (VerifyError "execution reverted") = Failure /\
        message (app s') <> text HashMismatch
    end.
Proof.
  intros Hc HNum Hup.
  pose proof (stored_in_range i (world s)) as Hrange.
  unfold verifyAsset. rewrite Hc, HNum. step_handler.
  unfold Registry.verifyAsset, Sim.methods, Sim.transport. rewrite Hup.
  destruct (Sim.stored i (world s)) as [[[[nm h] o] t]|].
  - cbn [fst snd]. eexists. split; [reflexivity |].
    destruct s as [a ls lg w]. cbn [world app log listeners] in *.
    unfold updated, answered.
    cbn [world app log listeners assets message with_message].
    split; [reflexivity | split; [reflexivity |]].
    split; [rewrite <- app_assoc; reflexivity |].
    split; [apply Hrange; discriminate |].
    destruct (String.eqb_spec (verifyHash st) h) as [Heq | Hne]; cbn [text].
    + split; split; intros H; try reflexivity; try assumption;
        [discriminate H | contradiction].
    + split; split; intros H; try reflexivity; try assumption;
        [discriminate H | contradiction].
  - cbn [fst snd]. eexists. split; [reflexivity |].
    destruct s as [a ls lg w]. cbn [world app log listeners] in *.
    unfold updated, answered.
    cbn [world app log listeners assets message with_message].
    split; [reflexivity | split; [reflexivity |]].
    split; [rewrite <- app_assoc; reflexivity |].
    split; [intros Hin; apply Hrange in Hin; congruence |].
    split; [reflexivity | split; [reflexivity | discriminate]].
Qed.

(** ** The session, run *)

(** The loop can walk a count that a simulated world computes to a small
    number. *)
Ltac sim_walkable :=
  let n := fresh "n" in
  let Hn := fresh "Hn" in
  intros n Hn; vm_compute in Hn;
  first [ discriminate Hn
        | injection Hn as <-; split; [unfold MAX_ARRAY_LENGTH; lia | vm_compute; lia] ].

Ltac sim_confirmed :=
  let w := fresh "w" in
  let Hw := fresh "Hw" in
  intros w Hw; vm_compute in Hw;
  first [ discriminate Hw | injection Hw as <-; sim_walkable ].

(** A refresh cut off at its third call: the second read fails, the cached
    deed stays and the failure is reported. *)
Lemma loadAssets_refreshes_or_keeps_witness :
  exists s',
    loadAssets 5 (app Sim.cut_off) None Sim.cut_off = Ret tt s' /\
    assets (app s') = assets (app Sim.cut_off) /\
    message (app s') = "❌ Error loading assets: network error".
Proof.
  destruct (loadAssets_refreshes_or_keeps 5 (app Sim.cut_off) None
              Sim.handle Sim.cut_off) as (s' & k & Hrun & Hs' & _).
  - reflexivity.
  - sim_walkable.
  - exists s'. split; [exact Hrun |]. subst s'. split; vm_compute; reflexivity.
Defined.

(** C2, as worded, fails.  The deed typed in is registered and confirmed;
    the success message is set, and the form emptied, before [assetCount]
    is asked: the log of the run is not in the order claimed. *)
Lemma success_reported_before_refresh :
  click 10 RegisterButton Sim.filled = Ret tt Sim.registered /\
  skipn (List.length (log Sim.filled)) (log Sim.registered)
  = [ ESetLoading true;
      ECall (CRegisterAsset Sim.handle "Deed A" "0xabc");
      ECall (CWait (mkTx 0));
      ESetMessage "✅ Asset registered successfully!";
      ESetAssetName "";
      ESetAssetHash "";
      ECall (CAssetCount Sim.handle);
      ECall (CGetAsset Sim.handle (Int 1));
      ESetAssets [mkAsset 1 "Deed A" "0xabc" "0xAA" 1700000000];
      ESetLoading false ] /\
  claimed_order (skipn (List.length (log Sim.filled)) (log Sim.registered)) = false.
Proof. repeat split; vm_compute; reflexivity. Qed.

(** The same registration, through the theorem. *)
Lemma mutation_steps_in_order_witness :
  exists s',
    registerAsset 10 (app Sim.filled) Sim.filled = Ret tt s' /\
    skipn (List.length (log Sim.filled)) (log s')
    = skipn (List.length (log Sim.filled)) (log Sim.registered).
Proof.
  destruct (mutation_steps_in_order 10 (app Sim.filled) Sim.handle Sim.filled)
    as [(s' & Hrun & Hlog) _].
  - reflexivity.
  - sim_confirmed.
  - sim_confirmed.
  - exists s'. split; [exact Hrun |]. rewrite Hlog. vm_compute. reflexivity.
Defined.

(** C3, as worded, fails.  While the registration is awaited, a click on
    Register or Transfer changes nothing and reports nothing: the status
    line is still the success of the last operation.  The handler itself
    does not look at the flag: called all the same, it registers. *)
Lemma busy_click_reports_nothing :
  loading (app Sim.busy) = true /\
  click 10 RegisterButton Sim.busy = Ret tt Sim.busy /\
  click 10 TransferButton Sim.busy = Ret tt Sim.busy /\
  statusMessage (app Sim.busy) = Some ("success", "✅ Connected to contract!") /\
  exists s',
    registerAsset 10 (app Sim.busy) Sim.busy = Ret tt s' /\
    message (app s') = "✅ Asset registered successfully!" /\
    Sim.registry (world s') = [("Deed A", "0xabc", "0xAA", 1700000000)].
Proof.
  repeat split; try (vm_compute; reflexivity).
  eexists. split; [vm_compute; reflexivity |]. split; reflexivity.
Qed.

(** The page while the registration is awaited. *)
Lemma busy_click_does_nothing_witness :
  disabled RegisterButton (app Sim.busy) = true /\
  click 10 RegisterButton Sim.busy = Ret tt Sim.busy.
Proof.
  apply busy_click_does_nothing; [left; reflexivity | reflexivity].
Defined.

(** Registering and transferring from the filled form: both return with
    the flag cleared (the transfer is refused by the registry). *)
Lemma mutation_returns_idle_witness :
  (exists s', registerAsset 10 (app Sim.filled) Sim.filled = Ret tt s'
              /\ loading (app s') = false) /\
  (exists s', transferOwnership 10 (app Sim.filled) Sim.filled = Ret tt s'
              /\ loading (app s') = false).
Proof.
  destruct (mutation_returns_idle 10 (app Sim.filled) Sim.filled)
    as (Hreg & Htr & _).
  - discriminate.
  - intros c w Hc. injection Hc as <-. revert w. sim_confirmed.
  - intros c w Hc. injection Hc as <-. revert w. sim_confirmed.
  - split; assumption.
Defined.

(** C5, as worded, fails.  Two failures are shown with different classes:
    the refusal to connect without a wallet as a success, a caught error as
    an error.  No function of the tag gives the class. *)
Lemma severity_not_from_tag :
  tag NoWallet = Failure /\
  messageClass (text NoWallet) = "success" /\
  tag (WalletError "denied") = Failure /\
  messageClass (text (WalletError "denied")) = "error" /\
  ~ (exists severity : Tag -> string,
        forall o, messageClass (text o) = severity (tag o)).
Proof.
  repeat split; try reflexivity.
  intros (severity & H).
  pose proof (H NoWallet) as H1. pose proof (H (WalletError "denied")) as H2.
  cbn [tag] in H1, H2. rewrite <- H1 in H2. vm_compute in H2. discriminate H2.
Qed.

(** C6, as worded, fails.  With the form empty, Register submits the empty
    name: the call is made, the transaction confirmed and a nameless asset
    is in the registry.  With an id out of range and a string that is no
    address, Transfer makes the call too. *)
Lemma empty_name_is_submitted :
  assetName (app Sim.ready) = "" /\
  (exists s',
      click 10 RegisterButton Sim.ready = Ret tt s' /\
      In (ECall (CRegisterAsset Sim.handle "" "")) (log s') /\
      message (app s') = "✅ Asset registered successfully!" /\
      Sim.registry (world s') = [("", "", "0xAA", 1700000000)]) /\
  (exists s',
      transferOwnership 10
        (with_transferTo "nobody" (with_transferAssetId "7" (app Sim.ready)))
        Sim.ready = Ret tt s' /\
      In (ECall (CTransferOwnership Sim.handle (Int 7) "nobody")) (log s') /\
      message (app s') = "❌ Error transferring ownership: execution reverted").
Proof.
  split; [reflexivity |]. split.
  - eexists. split; [vm_compute; reflexivity |].
    split; [| split; reflexivity].
    vm_compute. intuition.
  - eexists. split; [vm_compute; reflexivity |].
    split; [| reflexivity].
    vm_compute. intuition.
Qed.

(** The transfer of asset 7 to "nobody", through the theorem. *)
Lemma mutation_submits_unchecked_witness :
  exists s' rest,
    transferOwnership 10
      (with_transferTo "nobody" (with_transferAssetId "7" (app Sim.ready)))
      Sim.ready = Ret tt s' /\
    log s' = (log Sim.ready ++ ESetLoading true
                :: ECall (CTransferOwnership Sim.handle (Int 7) "nobody")
                :: rest)%list.
Proof.
  destruct (mutation_submits_unchecked 10
              (with_transferTo "nobody" (with_transferAssetId "7" (app Sim.ready)))
              Sim.handle Sim.ready) as [_ (s' & rest & Hrun & Hlog & _)].
  - reflexivity.
  - sim_confirmed.
  - sim_confirmed.
  - exists s', rest. split; [exact Hrun | exact Hlog].
Defined.

(** The registered deed verifies against its own hash. *)
Lemma verifyAsset_compares_stored_hash_witness :
  exists s',
    verifyAsset (with_verifyHash "0xabc" (with_verifyAssetId "1" (app Sim.registered)))
                Sim.registered = Ret tt s' /\
    message (app s') = "✅ Asset hash is valid!".
Proof.
  destruct (verifyAsset_compares_stored_hash
              (with_verifyHash "0xabc" (with_verifyAssetId "1" (app Sim.registered)))
              Sim.handle Sim.registered 1)
    as (s' & Hrun & _ & _ & _ & Hcase).
  - reflexivity.
  - reflexivity.
  - reflexivity.
  - exists s'. split; [exact Hrun |].
    vm_compute in Hcase. destruct Hcase as (_ & [_ Hvalid] & _).
    apply Hvalid. reflexivity.
Defined.

(** C8, as worded, fails.  On the page just loaded, with no wallet and no
    contract, the four handlers return without a word: nothing is shown. *)
Lemma unbound_handlers_report_nothing :
  registerAsset 10 initialState Sim.start = Ret tt Sim.start /\
  transferOwnership 10 initialState Sim.start = Ret tt Sim.start /\
  verifyAsset initialState Sim.start = Ret tt Sim.start /\
  loadAssets 10 initialState None Sim.start = Ret tt Sim.start /\
  statusMessage (app Sim.start) = None /\
  log Sim.start = [].
Proof. repeat split. Qed.

(** The page just loaded has no contract. *)
Lemma unbound_handlers_return_silently_witness :
  registerAsset 10 initialState Sim.start = Ret tt Sim.start.
Proof.
  apply (unbound_handlers_return_silently 10 initialState Sim.start).
  reflexivity.
Defined.

(** C9, as worded, fails.  The wallet switches to [0xBB]: the account
    shown follows, the contract handle is the one built for [0xAA], the
    signer too, and neither a call nor a refresh is made. *)
Lemma account_change_keeps_handle :
  exists s',
    accountsChanged ["0xBB"] Sim.registered = Ret tt s' /\
    account (app s') = "0xBB" /\
    contract (app s') = Some Sim.handle /\
    contract (app Sim.registered) = Some Sim.handle /\
    signer_address (runner Sim.handle) = "0xAA" /\
    signer (app s') = Some (mkSigner "0xAA") /\
    assets (app s') = assets (app Sim.registered) /\
    skipn (List.length (log Sim.registered)) (log s') = [ESetAccount "0xBB"].
Proof. eexists. split; [vm_compute; reflexivity |]. repeat split. Qed.

(** The wallet reports no account at all. *)
Lemma accountsChanged_sets_account_only_witness :
  exists s',
    accountsChanged [] Sim.registered = Ret tt s' /\ account (app s') = "".
Proof.
  destruct (accountsChanged_sets_account_only [] Sim.registered)
    as (s' & Hrun & Hacc & _).
  - discriminate.
  - exists s'. split; [exact Hrun | exact Hacc].
Defined.

(** The page after the mount and one click on Connect Wallet. *)
Lemma twice_reachable : reachable Sim.twice.
Proof.
  apply (reach_return Sim.mounted Sim.twice 10 (Click ConnectWalletButton)).
  - apply (reach_return Sim.start Sim.mounted 0 Mount).
    + apply reach_boot.
    + vm_compute. reflexivity.
  - vm_compute. reflexivity.
Defined.

(** Mounted, then Connect Wallet clicked: two listeners, and one event
    sets the account twice. *)
Lemma listeners_accumulate_witness :
  List.length (listeners Sim.twice) = 2%nat /\
  exists s',
    accountsChanged ["0xBB"] Sim.twice = Ret tt s' /\
    log s' = (log Sim.twice ++ [ESetAccount "0xBB"; ESetAccount "0xBB"])%list.
Proof.
  destruct (listeners_accumulate Sim.twice twice_reachable)
    as (Hlen & _ & _ & Hevent).
  split.
  - rewrite Hlen. vm_compute. reflexivity.
  - destruct (Hevent ["0xBB"]) as (s' & Hrun & Hlog).
    exists s'. split; [exact Hrun |]. rewrite Hlog. vm_compute. reflexivity.
Defined.

(** * More of the component *)

(** ** Runs as sequences of moves *)

Section MoveFacts.

Context {W : Type} {wallet : Wallet W} {registry : Registry.Methods W}
        {runtime : Runtime}.

Lemma moves_trans (b : bool) (s1 s2 s3 : Sys W) :
  moves b s1 s2 -> moves b s2 s3 -> moves b s1 s3.
Proof.
  intros H12 H23. induction H23 as [|s2 s3 s4 _ IH Hm]; [exact H12 |].
  eapply moves_more; [apply IH; exact H12 | exact Hm].
Qed.

Lemma move_mutating (s s' : Sys W) : move false s s' -> move true s s'.
Proof.
  intros H. destruct H; constructor; solve [auto].
Qed.

Lemma moves_mutating (s s' : Sys W) : moves false s s' -> moves true s s'.
Proof.
  induction 1 as [|s1 s2 s3 _ IH Hm]; [constructor |].
  eapply moves_more; [exact IH | apply move_mutating, Hm].
Qed.

Lemma lands_walks (b : bool) {A : Type} (h : M (Sys W) A) :
  lands b h -> walks b h.
Proof.
  intros Hh s0 s Hs. specialize (Hh s0 s Hs). unfold ensures in *.
  destruct (h s); [exact Hh | contradiction | exact I].
Qed.

Lemma lands_ret (b : bool) {A : Type} (a : A) : lands (W := W) b (ret a).
Proof. intros s0 s Hs. exact Hs. Qed.

Lemma lands_out_of_fuel (b : bool) {A : Type} :
  lands b (@out_of_fuel (Sys W) A).
Proof. intros s0 s Hs. exact I. Qed.

Lemma lands_setState (b : bool) (e : Event) (f : AppState -> AppState) :
  (forall s : Sys W, move b s (updated e f s)) ->
  lands (W := W) b (setState e f).
Proof. intros Hm s0 s Hs. eapply moves_more; [exact Hs | apply Hm]. Qed.

Lemma walks_await (b : bool) {A : Type} (c : Call) (f : W -> Settled A * W) :
  (submits c = true -> b = true) -> walks b (await c f).
Proof.
  intros Hc s0 s Hs. unfold ensures, await.
  destruct (fst (f (world s)));
    (eapply moves_more; [exact Hs | apply move_call, Hc]).
Qed.

Lemma walks_bind (b : bool) {A B : Type} (m : M (Sys W) A) (k : A -> M (Sys W) B) :
  walks b m -> (forall a, walks b (k a)) -> walks b (bind m k).
Proof.
  intros Hm Hk s0 s Hs. specialize (Hm s0 s Hs). unfold ensures, bind in *.
  destruct (m s) as [a s1|e s1|]; [| exact Hm | exact I].
  apply (Hk a s0 s1 Hm).
Qed.

Lemma lands_bind (b : bool) {A B : Type} (m : M (Sys W) A) (k : A -> M (Sys W) B) :
  lands b m -> (forall a, lands b (k a)) -> lands b (bind m k).
Proof.
  intros Hm Hk s0 s Hs. specialize (Hm s0 s Hs). unfold ensures, bind in *.
  destruct (m s) as [a s1|e s1|]; [| exact Hm | exact I].
  apply (Hk a s0 s1 Hm).
Qed.

Lemma lands_try_catch (b : bool) {A : Type} (body : M (Sys W) A)
      (handler : string -> M (Sys W) A) :
  walks b body -> (forall e, lands b (handler e)) ->
  lands b (try_catch body handler).
Proof.
  intros Hm Hk s0 s Hs. specialize (Hm s0 s Hs). unfold ensures, try_catch in *.
  destruct (body s) as [a s1|e s1|]; [exact Hm | | exact I].
  apply (Hk e s0 s1 Hm).
Qed.

Lemma lands_try_finally (b : bool) {A : Type} (body : M (Sys W) A)
      (finalizer : M (Sys W) unit) :
  lands b body -> lands b finalizer -> lands b (try_finally body finalizer).
Proof.
  intros Hm Hf s0 s Hs. specialize (Hm s0 s Hs).
  unfold ensures, try_finally, bind, ret in *.
  destruct (body s) as [a s1|e s1|]; [| contradiction | exact I].
  specialize (Hf s0 s1 Hm). unfold ensures in Hf.
  destruct (finalizer s1); [exact Hf | contradiction | exact I].
Qed.

Lemma lands_setMessage (b : bool) (o : Outcome) :
  lands (W := W) b (setMessage (text o)).
Proof. apply lands_setState. intros s. apply move_message. Qed.

Lemma lands_field (b : bool) (e : Event) (f : AppState -> AppState) :
  form_field e f -> lands (W := W) b (setState e f).
Proof. intros Hf. apply lands_setState. intros s. apply move_field, Hf. Qed.

End MoveFacts.

(** ** The handlers, as moves *)

Section HandlerMoves.

Context {W : Type} {wallet : Wallet W} {registry : Registry.Methods W}
        {runtime : Runtime}.

Lemma incr_at_limit : incr (2 ^ 53) = 2 ^ 53.
Proof. vm_compute. reflexivity. Qed.

Lemma length_ids_upto (n : Z) : List.length (ids_upto n) = Z.to_nat n.
Proof. unfold ids_upto. rewrite length_map, length_seq. reflexivity. Qed.

Lemma ids_upto_snoc (i : Z) :
  1 <= i -> ids_upto i = (ids_upto (i - 1) ++ [i])%list.
Proof.
  intros Hi. unfold ids_upto.
  replace (Z.to_nat i) with (S (Z.to_nat (i - 1))) by lia.
  rewrite seq_S, map_app. cbn [map].
  replace (Z.of_nat (1 + Z.to_nat (i - 1))) with i by lia. reflexivity.
Qed.

Lemma dense_ids_upto (acc : list Asset) (i : Z) :
  1 <= i -> map id acc = ids_upto (i - 1) -> dense acc.
Proof.
  intros Hi Hids. unfold dense.
  assert (Hlen : List.length acc = Z.to_nat (i - 1)).
  { rewrite <- (length_map id acc), Hids. apply length_ids_upto. }
  rewrite Hlen, Z2Nat.id by lia. exact Hids.
Qed.

(** The loop only reads, and the list it returns has the ids [1, 2, ..]. *)
Lemma loadAssets_for_walks (b : bool) (fuel : nat) :
  forall (c : Contract) (count i : Z) (acc : list Asset) (s0 s : Sys W),
    loop_state count i acc ->
    moves b s0 s ->
    ensures (loadAssets_for fuel c count i acc) s
            (fun l s' => moves b s0 s' /\ dense l)
            (fun _ s' => moves b s0 s').
Proof.
  induction fuel as [|fuel IH]; intros c count i acc s0 s Hstate Hs.
  - exact I.
  - unfold ensures. cbn [loadAssets_for].
    destruct (Z.leb_spec i (Number_of_bigint count)) as [Hle | Hgt].
    + unfold bind at 1. unfold await at 1.
      assert (Hcall : moves b s0
                (answered (CGetAsset c (Int i))
                          (snd (Registry.getAsset c (Int i) (world s))) s)).
      { eapply moves_more; [exact Hs | apply move_call; discriminate]. }
      destruct (fst (Registry.getAsset c (Int i) (world s))) as [[[[nm h] o] t]|e];
        [| exact Hcall].
      apply IH; [| exact Hcall].
      destruct Hstate as [[Hi Hids] | [Hi HN]].
      * destruct (Z.eq_dec i (2 ^ 53)) as [-> | Hne].
        -- right. split; [apply incr_at_limit | exact Hle].
        -- left. rewrite incr_safe by (unfold MAX_SAFE_INTEGER; lia).
           split; [lia |].
           rewrite map_app, Hids. cbn [map id].
           replace (i + 1 - 1) with i by lia.
           symmetry. apply ids_upto_snoc. lia.
      * right. subst i. split; [apply incr_at_limit | exact HN].
    + split; [exact Hs |].
      destruct Hstate as [[Hi Hids] | [Hi HN]]; [| lia].
      eapply dense_ids_upto; [| exact Hids]. lia.
Qed.

Lemma loop_starts (count : Z) : loop_state count 1 [].
Proof. left. split; [lia | reflexivity]. Qed.

Lemma lands_loadAssets (b : bool) (fuel : nat) (st : AppState)
      (co : option Contract) :
  lands (W := W) b (loadAssets fuel st co).
Proof.
  unfold loadAssets.
  destruct (match co with Some c' => Some c' | None => contract st end) as [cu|];
    [| apply lands_ret].
  apply lands_try_catch; [| intros e; apply (lands_setMessage b (LoadError e))].
  apply walks_bind; [apply walks_await; discriminate | intros count].
  intros s0 s Hs.
  pose proof (loadAssets_for_walks b fuel cu count 1 [] s0 s (loop_starts count) Hs)
    as Hloop.
  unfold ensures, bind in *.
  destruct (loadAssets_for fuel cu count 1 [] s) as [l s1|e s1|];
    [| exact Hloop | exact I].
  destruct Hloop as [Hs1 Hdense].
  eapply moves_more; [exact Hs1 | apply move_assets, Hdense].
Qed.

Lemma lands_verifyAsset (b : bool) (st : AppState) :
  lands (W := W) b (verifyAsset st).
Proof.
  unfold verifyAsset. destruct (contract st); [| apply lands_ret].
  apply lands_try_catch; [| intros e; apply (lands_setMessage b (VerifyError e))].
  apply walks_bind; [apply walks_await; discriminate | intros valid].
  apply lands_walks.
  destruct valid;
    [apply (lands_setMessage b HashValid) | apply (lands_setMessage b HashMismatch)].
Qed.

Lemma lands_onChange (b : bool) (f : Field) (v : string) :
  lands (W := W) b (onChange f v).
Proof. destruct f; apply lands_field; constructor. Qed.

Lemma lands_registerAsset (fuel : nat) (st : AppState) :
  lands (W := W) true (registerAsset fuel st).
Proof.
  unfold registerAsset. destruct (contract st); [| apply lands_ret].
  apply lands_try_finally;
    [| apply lands_setState; intros s; apply move_loading; reflexivity].
  apply lands_try_catch; [| intros e; apply (lands_setMessage true (RegisterError e))].
  apply walks_bind;
    [apply lands_walks, lands_setState; intros s; apply move_loading; reflexivity
    | intros _].
  apply walks_bind; [apply walks_await; reflexivity | intros tx].
  apply walks_bind; [apply walks_await; reflexivity | intros _].
  apply walks_bind; [apply lands_walks, (lands_setMessage true Registered) | intros _].
  apply walks_bind; [apply lands_walks, lands_field; constructor | intros _].
  apply walks_bind; [apply lands_walks, lands_field; constructor | intros _].
  apply lands_walks, lands_loadAssets.
Qed.

Lemma lands_transferOwnership (fuel : nat) (st : AppState) :
  lands (W := W) true (transferOwnership fuel st).
Proof.
  unfold transferOwnership. destruct (contract st); [| apply lands_ret].
  apply lands_try_finally;
    [| apply lands_setState; intros s; apply move_loading; reflexivity].
  apply lands_try_catch; [| intros e; apply (lands_setMessage true (TransferError e))].
  apply walks_bind;
    [apply lands_walks, lands_setState; intros s; apply move_loading; reflexivity
    | intros _].
  apply walks_bind; [apply walks_await; reflexivity | intros tx].
  apply walks_bind; [apply walks_await; reflexivity | intros _].
  apply walks_bind; [apply lands_walks, (lands_setMessage true Transferred) | intros _].
  apply walks_bind; [apply lands_walks, lands_field; constructor | intros _].
  apply walks_bind; [apply lands_walks, lands_field; constructor | intros _].
  apply lands_walks, lands_loadAssets.
Qed.

(** [connectContract], run by the render [st] whose signer is the signer
    of the page. *)
Lemma connectContract_lands (b : bool) (fuel : nat) (st : AppState) (s0 s : Sys W) :
  signer (app s) = signer st ->
  moves b s0 s ->
  ensures (connectContract fuel st) s (fun _ s' => moves b s0 s') (fun _ _ => False).
Proof.
  intros Hsg Hs. unfold connectContract.
  destruct (signer st) as [sg|]; [| apply (lands_setMessage b NoSigner), Hs].
  set (c := mkContract CONTRACT_ADDRESS CONTRACT_ABI sg).
  assert (Hrest :
    ensures (try_catch
               (setMessage "✅ Connected to contract!" ;; loadAssets fuel st (Some c))
               (fun error => setMessage ("❌ Error connecting contract: " ++ error)))
            (updated (ESetContract c) (with_contract (Some c)) s)
            (fun _ s' => moves b s0 s') (fun _ _ => False)).
  { apply lands_try_catch.
    - apply walks_bind; [apply lands_walks, (lands_setMessage b ContractConnected) |].
      intros _. apply lands_walks, lands_loadAssets.
    - intros e. apply (lands_setMessage b (ContractError e)).
    - eapply moves_more; [exact Hs | apply move_contract, Hsg]. }
  exact Hrest.
Qed.

Lemma run_listeners_lands (b : bool) (accounts : list string) (ls : list Listener) :
  lands (W := W) b (run_listeners ls accounts).
Proof.
  induction ls as [|l ls IH]; cbn [run_listeners]; [apply lands_ret |].
  apply lands_bind; [| intros _; exact IH].
  destruct l. apply lands_setState. intros s. apply move_account.
Qed.

Lemma connectWallet_lands (b : bool) (s0 s : Sys W) :
  moves b s0 s ->
  ensures connectWallet s (fun _ s' => moves b s0 s') (fun _ _ => False).
Proof.
  intros Hs. unfold ensures. rewrite connectWallet_runs.
  destruct (negb (window_ethereum (world s))).
  - eapply moves_more; [exact Hs | apply move_message].
  - destruct (fst (getSigner (world s))) as [sg|e].
    + destruct (fst (getAddress sg _)) as [address|e].
      * eapply moves_more; [exact Hs | apply move_wallet].
      * eapply moves_more; [| apply move_message].
        eapply moves_more; [| apply move_call; discriminate].
        eapply moves_more; [exact Hs | apply move_call; discriminate].
    + eapply moves_more; [| apply move_message].
      eapply moves_more; [exact Hs | apply move_call; discriminate].
Qed.

(** Every action is a sequence of moves and does not throw; only the two
    mutations submit or touch the busy flag. *)
Lemma perform_lands (fuel : nat) (a : Action) (s : Sys W) :
  ensures (perform fuel a) s (fun _ s' => moves (mutation a) s s') (fun _ _ => False).
Proof.
  destruct a as [|b|f v|accounts]; cbn [perform].
  - unfold useEffect_mount, ensures, bind, ethereum_detected.
    destruct (window_ethereum (world s)).
    + apply (connectWallet_lands false s s). constructor.
    + constructor.
  - unfold click, ensures. destruct (disabled b (app s)); [constructor |].
    destruct b; cbn [onClick mutation].
    + apply (connectWallet_lands false s s). constructor.
    + apply (connectContract_lands false fuel (app s) s s); [reflexivity | constructor].
    + apply (lands_registerAsset fuel (app s) s s). constructor.
    + apply (lands_transferOwnership fuel (app s) s s). constructor.
    + apply (lands_verifyAsset false (app s) s s). constructor.
    + apply (lands_loadAssets false fuel (app s) None s s). constructor.
  - apply (lands_onChange false f v s s). constructor.
  - unfold accountsChanged.
    apply (run_listeners_lands false accounts (listeners s) s s). constructor.
Qed.

End HandlerMoves.

(** ** What the moves keep *)

Section MoveInvariants.

Context {W : Type} {wallet : Wallet W} {registry : Registry.Methods W}
        {runtime : Runtime}.

(** [sound] reads six things of the system. *)
Lemma sound_same (s s' : Sys W) :
  message (app s') = message (app s) ->
  assets (app s') = assets (app s) ->
  provider (app s') = provider (app s) ->
  signer (app s') = signer (app s) ->
  contract (app s') = contract (app s) ->
  listeners s' = listeners s ->
  sound s -> sound s'.
Proof.
  unfold sound. intros -> -> -> -> -> ->. exact (fun H => H).
Qed.

Lemma sound_move (b : bool) (s s' : Sys W) : sound s -> move b s s' -> sound s'.
Proof.
  intros Hs Hmove.
  destruct Hmove as [c w s _ | e f s Hf | o s | l s Hl | sg s Hsg | a s
                     | sg address w s | b' s _].
  - apply (sound_same s); auto.
  - apply (sound_same s); auto; destruct Hf; reflexivity.
  - destruct Hs as (_ & Hdense & Hprov & Hlis & Hcon).
    split; [right; exists o; reflexivity |].
    split; [exact Hdense | split; [exact Hprov | split; [exact Hlis | exact Hcon]]].
  - destruct Hs as (Hmsg & _ & Hprov & Hlis & Hcon).
    split; [exact Hmsg |].
    split; [exact Hl | split; [exact Hprov | split; [exact Hlis | exact Hcon]]].
  - destruct Hs as (Hmsg & Hdense & Hprov & Hlis & _).
    split; [exact Hmsg |].
    split; [exact Hdense | split; [exact Hprov | split; [exact Hlis |]]].
    intros c Hc. cbn in Hc. injection Hc as <-.
    split; [reflexivity | split; [reflexivity |]].
    cbn [updated app with_contract signer]. congruence.
  - apply (sound_same s); auto.
  - destruct Hs as (_ & Hdense & _ & _ & Hcon).
    split; [right; exists WalletConnected; reflexivity |].
    split; [exact Hdense |].
    split; [split; discriminate |].
    split; [split; [discriminate |] |].
    { intros H. unfold wallet_connected in H. cbn [listeners] in H.
      destruct (listeners s); discriminate H. }
    intros c Hc. destruct (Hcon c Hc) as (Ht & Hi & _).
    split; [exact Ht | split; [exact Hi | discriminate]].
  - apply (sound_same s); auto.
Qed.

Lemma sound_moves (b : bool) (s s' : Sys W) : sound s -> moves b s s' -> sound s'.
Proof.
  intros Hs. induction 1 as [|s1 s2 s3 _ IH Hm]; [exact Hs |].
  eapply sound_move; [apply IH, Hs | exact Hm].
Qed.

Lemma sound_boot (w : W) : sound (boot w).
Proof.
  unfold sound, boot. cbn. repeat split; try tauto; try discriminate.
Qed.

(** A sequence of moves that does not mutate leaves the busy flag alone,
    and adds read-only events only. *)
Lemma quiet_moves (s s' : Sys W) :
  moves false s s' ->
  loading (app s') = loading (app s) /\
  exists evs, log s' = (log s ++ evs)%list /\ Forall read_only_event evs.
Proof.
  induction 1 as [s|s1 s2 s3 _ [IHl (evs & IHlog & IHev)] Hm].
  - split; [reflexivity |]. exists []. rewrite app_nil_r. auto.
  - destruct Hm as [c w s2 Hc | e f s2 Hf | o s2 | l s2 Hl | sg s2 Hsg | a s2
                    | sg address w s2 | b' s2 Hb];
      unfold updated, answered, wallet_connected; cbn [app log].
    + split; [exact IHl |]. exists (evs ++ [ECall c])%list.
      rewrite IHlog, app_assoc. split; [reflexivity |].
      apply Forall_app. split; [exact IHev |]. constructor; [| constructor].
      cbn. destruct (submits c); [| reflexivity].
      specialize (Hc eq_refl). discriminate Hc.
    + split; [destruct Hf; exact IHl |]. exists (evs ++ [e])%list.
      rewrite IHlog, app_assoc. split; [reflexivity |].
      apply Forall_app. split; [exact IHev |].
      constructor; [destruct Hf; exact I | constructor].
    + split; [exact IHl |]. eexists (evs ++ [_])%list.
      rewrite IHlog, app_assoc. split; [reflexivity |].
      apply Forall_app. split; [exact IHev |]. repeat constructor.
    + split; [exact IHl |]. eexists (evs ++ [_])%list.
      rewrite IHlog, app_assoc. split; [reflexivity |].
      apply Forall_app. split; [exact IHev |]. repeat constructor.
    + split; [exact IHl |]. eexists (evs ++ [_])%list.
      rewrite IHlog, app_assoc. split; [reflexivity |].
      apply Forall_app. split; [exact IHev |]. repeat constructor.
    + split; [exact IHl |]. eexists (evs ++ [_])%list.
      rewrite IHlog, app_assoc. split; [reflexivity |].
      apply Forall_app. split; [exact IHev |]. repeat constructor.
    + split; [exact IHl |]. eexists (evs ++ _)%list.
      rewrite IHlog, app_assoc. split; [reflexivity |].
      apply Forall_app. split; [exact IHev |]. repeat constructor.
    + discriminate Hb.
Qed.

(** No move unbinds the provider, the signer or the contract, and no move
    removes a listener. *)
Lemma bound_moves (b : bool) (s s' : Sys W) :
  moves b s s' ->
  (provider (app s) <> None -> provider (app s') <> None) /\
  (signer (app s) <> None -> signer (app s') <> None) /\
  (contract (app s) <> None -> contract (app s') <> None) /\
  exists more, listeners s' = (listeners s ++ more)%list.
Proof.
  induction 1 as [s|s1 s2 s3 _ (IHp & IHs & IHc & more & IHl) Hm].
  - repeat split; try tauto. exists []. rewrite app_nil_r. reflexivity.
  - destruct Hm as [c w s2 Hc | e f s2 Hf | o s2 | l s2 Hl | sg s2 Hsg | a s2
                    | sg address w s2 | b' s2 Hb];
      unfold updated, answered, wallet_connected; cbn [app listeners];
      try (destruct Hf); cbn;
      (split; [| split; [| split]]);
      try tauto; try (intros; discriminate); try (exists more; exact IHl).
    exists (more ++ [OnAccountsChanged])%list. rewrite IHl, app_assoc. reflexivity.
Qed.

Lemma added_app (s s' : Sys W) (evs : list Event) :
  log s' = (log s ++ evs)%list -> added s s' = evs.
Proof.
  intros H. unfold added. rewrite H, skipn_app, skipn_all, Nat.sub_diag.
  reflexivity.
Qed.

(** No action throws. *)
Lemma perform_returns (fuel : nat) (a : Action) (s s' : Sys W) (e : string) :
  perform fuel a s = Throw e s' -> False.
Proof.
  intros H. pose proof (perform_lands fuel a s) as Hl.
  unfold ensures in Hl. rewrite H in Hl. exact Hl.
Qed.

Lemma perform_moves (fuel : nat) (a : Action) (s s' : Sys W) :
  perform fuel a s = Ret tt s' -> moves (mutation a) s s'.
Proof.
  intros H. pose proof (perform_lands fuel a s) as Hl.
  unfold ensures in Hl. rewrite H in Hl. exact Hl.
Qed.

(** A mutation returns with the busy flag cleared, when it had not been
    set without a contract. *)
Lemma mutation_idle (fuel : nat) (a : Action) (s s' : Sys W) :
  mutation a = true ->
  loading (app s) = false ->
  perform fuel a s = Ret tt s' ->
  loading (app s') = false.
Proof.
  intros Ha Hidle Hrun.
  destruct a as [|b| |]; try discriminate Ha.
  destruct b; try discriminate Ha; cbn [perform] in Hrun; unfold click in Hrun;
    cbn [disabled onClick] in Hrun; rewrite Hidle, orb_false_r in Hrun.
  - destruct (contract (app s)) as [c|] eqn:Hc;
      [| injection Hrun as <-; exact Hidle].
    unfold registerAsset in Hrun. rewrite Hc in Hrun.
    match type of Hrun with
    | try_finally (try_catch ?body (fun e => setMessage (?p ++ e))) _ _ = _ =>
        pose proof (guarded_returns_idle body p s) as Hg
    end.
    rewrite Hrun in Hg. exact Hg.
  - destruct (contract (app s)) as [c|] eqn:Hc;
      [| injection Hrun as <-; exact Hidle].
    unfold transferOwnership in Hrun. rewrite Hc in Hrun.
    match type of Hrun with
    | try_finally (try_catch ?body (fun e => setMessage (?p ++ e))) _ _ = _ =>
        pose proof (guarded_returns_idle body p s) as Hg
    end.
    rewrite Hrun in Hg. exact Hg.
Qed.

(** Every reachable page is sound and idle. *)
Lemma reachable_sound (s : Sys W) :
  reachable s -> sound s /\ loading (app s) = false.
Proof.
  induction 1 as [w | s w _ IH | s s' fuel a _ [IHs IHl] Hrun
                  | s s' fuel a e _ _ Hrun].
  - split; [apply sound_boot | reflexivity].
  - exact IH.
  - pose proof (perform_moves fuel a s s' Hrun) as Hm.
    split; [eapply sound_moves; eassumption |].
    destruct (mutation a) eqn:Ha.
    + eapply mutation_idle; eassumption.
    + destruct (quiet_moves s s' Hm) as [Hl _]. congruence.
  - exfalso. eapply perform_returns, Hrun.
Qed.

End MoveInvariants.

(** ** Pages at rest *)

Section PageFacts.

Context {W : Type} {wallet : Wallet W} {registry : Registry.Methods W}
        {runtime : Runtime}.

(** X1.  No action ends in an unhandled rejection: whatever the wallet and
    the contract answer, and whatever the fuel, mounting, a click on any
    button, typing and an account event return or are still running; they
    never throw. *)
Theorem actions_never_throw (fuel : nat) (a : Action) (s : Sys W) :
  match perform fuel a s with
  | Ret _ _ => True
  | Throw _ _ => False
  | OutOfFuel => True
  end.
Proof.
  destruct (perform fuel a s) as [[] s'|e s'|] eqn:Hrun; try exact I.
  eapply perform_returns, Hrun.
Qed.

(** X2.  Only Register and Transfer send transactions.  Any other action
    that returns (mounting, connecting the wallet or the contract,
    verifying, refreshing, typing, an account event) has made no
    [registerAsset], [transferOwnership] or [wait] call, has not set the
    busy flag, and leaves [loading] as it was. *)
Theorem only_mutations_submit (fuel : nat) (a : Action) (s s' : Sys W) :
  mutation a = false ->
  perform fuel a s = Ret tt s' ->
  Forall read_only_event (added s s') /\
  loading (app s') = loading (app s).
Proof.
  intros Ha Hrun. pose proof (perform_moves fuel a s s' Hrun) as Hm.
  rewrite Ha in Hm. destruct (quiet_moves s s' Hm) as [Hl (evs & Hlog & Hev)].
  rewrite (added_app s s' evs Hlog). split; assumption.
Qed.

(** X3.  Nothing disconnects the page.  Whatever action returns, a
    provider, a signer or a contract that was bound before is bound after:
    not even an account event with no account unbinds them. *)
Theorem bindings_are_kept (fuel : nat) (a : Action) (s s' : Sys W) :
  perform fuel a s = Ret tt s' ->
  (provider (app s) <> None -> provider (app s') <> None) /\
  (signer (app s) <> None -> signer (app s') <> None) /\
  (contract (app s) <> None -> contract (app s') <> None).
Proof.
  intros Hrun. pose proof (perform_moves fuel a s s' Hrun) as Hm.
  destruct (bound_moves _ s s' Hm) as (Hp & Hs & Hc & _).
  split; [exact Hp | split; [exact Hs | exact Hc]].
Qed.

(** X4.  A page at rest is idle.  On every page reached from the first
    render by actions that returned, [loading] is [false]: the banner is
    not shown, and Register and Transfer are enabled exactly when Verify
    and Refresh are, that is when a contract is bound. *)
Theorem pages_at_rest_are_idle (s : Sys W) :
  reachable s ->
  loading (app s) = false /\
  loadingBanner (app s) = false /\
  disabled RegisterButton (app s) = disabled VerifyButton (app s) /\
  disabled TransferButton (app s) = disabled RefreshButton (app s).
Proof.
  intros Hreach. destruct (reachable_sound s Hreach) as [_ Hidle].
  unfold loadingBanner, disabled. rewrite Hidle, orb_false_r.
  repeat split.
Qed.

Lemma nth_error_ids_upto (n : Z) (k : nat) (x : Z) :
  nth_error (ids_upto n) k = Some x -> x = Z.of_nat k + 1.
Proof.
  unfold ids_upto. intros H.
  rewrite nth_error_map in H.
  destruct (nth_error (seq 1 (Z.to_nat n)) k) as [m|] eqn:Hm; [| discriminate H].
  injection H as <-.
  assert (Hk : (k < List.length (seq 1 (Z.to_nat n)))%nat)
    by (apply nth_error_Some; congruence).
  rewrite length_seq in Hk.
  apply (nth_error_nth _ _ 0%nat) in Hm. rewrite seq_nth in Hm by exact Hk. lia.
Qed.

Lemma NoDup_ids_upto (n : Z) : NoDup (ids_upto n).
Proof.
  unfold ids_upto. generalize (seq_NoDup (Z.to_nat n) 1).
  generalize (seq 1 (Z.to_nat n)). intros l Hl.
  induction Hl as [|x l Hx _ IH]; cbn [map]; constructor; [| exact IH].
  intros Hin. apply in_map_iff in Hin. destruct Hin as (y & Hy & Hin).
  apply Nat2Z.inj in Hy. subst y. contradiction.
Qed.

(** X5.  The cards of the catalog are numbered from one.  On every
    reachable page the asset at position [k] (from zero) has id [k + 1]:
    the ids are [1, 2, ..] in ascending order, so the React keys of the
    cards are distinct. *)
Theorem catalog_ids_count_from_one (s : Sys W) :
  reachable s ->
  (forall k a, nth_error (assets (app s)) k = Some a -> id a = Z.of_nat k + 1) /\
  NoDup (map id (assets (app s))).
Proof.
  intros Hreach. destruct (reachable_sound s Hreach) as [(_ & Hdense & _) _].
  unfold dense in Hdense. split.
  - intros k a Hk. apply (nth_error_ids_upto (Z.of_nat (List.length (assets (app s))))).
    rewrite <- Hdense, nth_error_map, Hk. reflexivity.
  - rewrite Hdense. apply NoDup_ids_upto.
Qed.

Lemma text_not_empty (o : Outcome) : String.eqb (text o) "" = false.
Proof. destruct o; reflexivity. Qed.

(** X6.  The status line only ever shows one of the fourteen outcomes.  On
    every reachable page the message is empty, and then no status line is
    rendered, or it is the text of an outcome, rendered with the class
    computed from that text. *)
Theorem message_is_a_reported_outcome (s : Sys W) :
  reachable s ->
  (message (app s) = "" /\ statusMessage (app s) = None) \/
  (exists o, message (app s) = text o /\
             statusMessage (app s) = Some (messageClass (text o), text o)).
Proof.
  intros Hreach. destruct (reachable_sound s Hreach) as [(Hmsg & _) _].
  unfold statusMessage.
  destruct Hmsg as [Hempty | (o & Ho)]; rewrite ?Hempty, ?Ho.
  - left. split; reflexivity.
  - right. exists o. rewrite text_not_empty. split; reflexivity.
Qed.



End PageFacts.

(** ** Connecting *)

Section ConnectFacts.

Context {W : Type} {wallet : Wallet W} {registry : Registry.Methods W}
        {runtime : Runtime}.


(** X10.  Without a wallet the mount is silent.  When [window.ethereum] is
    missing, the effect run at mount changes nothing and shows nothing,
    whereas a click on Connect Wallet makes no call either but shows the
    warning, with the class of a success. *)
Theorem mount_is_silent_without_wallet (fuel : nat) (s : Sys W) :
  window_ethereum (world s) = false ->
  useEffect_mount s = Ret tt s /\
  exists s',
    click fuel ConnectWalletButton s = Ret tt s' /\
    app s' = with_message (text NoWallet) (app s) /\
    statusMessage (app s') = Some ("success", text NoWallet) /\
    world s' = world s /\
    listeners s' = listeners s /\
    log s' = (log s ++ [ESetMessage (text NoWallet)])%list.
Proof.
  intros Hno. split.
  - unfold useEffect_mount, bind, ethereum_detected. rewrite Hno. reflexivity.
  - eexists. split.
    + unfold click. cbn [disabled onClick]. rewrite connectWallet_runs, Hno.
      reflexivity.
    + repeat split.
Qed.

(** [connectContract] with a signer, in a world whose count the loop can
    walk. *)
Lemma connectContract_runs (fuel : nat) (st : AppState) (sg : Signer)
      (s : Sys W) :
  signer st = Some sg ->
  walkable fuel (mkContract CONTRACT_ADDRESS CONTRACT_ABI sg) (world s) ->
  connectContract fuel st s
  = Ret tt
      (refreshed
         (refresh (mkContract CONTRACT_ADDRESS CONTRACT_ABI sg) (world s))
         (updated (ESetMessage (text ContractConnected))
                  (with_message (text ContractConnected))
                  (updated (ESetContract (mkContract CONTRACT_ADDRESS CONTRACT_ABI sg))
                           (with_contract
                              (Some (mkContract CONTRACT_ADDRESS CONTRACT_ABI sg)))
                           s))).
Proof.
  intros Hsg Hwalk. unfold connectContract. rewrite Hsg.
  unfold try_catch. unfold bind at 1. unfold setContract at 1. unfold setState at 1.
  unfold bind at 1. unfold setMessage at 1. unfold setState at 1.
  rewrite (loadAssets_runs fuel st _ (mkContract CONTRACT_ADDRESS CONTRACT_ABI sg));
    [reflexivity | reflexivity | exact Hwalk].
Qed.

(** X11.  [connectContract] binds first and refreshes through the new
    handle.  With a signer [sg], it builds the handle for the configured
    address and ABI with [sg] as runner, binds it, reports the connection,
    and then refreshes the catalog through that handle, whatever handle the
    render held.  If the first refresh fails the contract stays bound, the
    catalog is unchanged, and the failure is reported as a loading error,
    never as a connecting error. *)
Theorem connectContract_binds_then_refreshes (fuel : nat) (st : AppState)
        (sg : Signer) (s : Sys W) :
  signer st = Some sg ->
  walkable fuel (mkContract CONTRACT_ADDRESS CONTRACT_ABI sg) (world s) ->
  exists s',
    connectContract fuel st s = Ret tt s' /\
    contract (app s') = Some (mkContract CONTRACT_ADDRESS CONTRACT_ABI sg) /\
    log s' = (log s
              ++ [ESetContract (mkContract CONTRACT_ADDRESS CONTRACT_ABI sg);
                  ESetMessage (text ContractConnected)]
              ++ refresh_events
                   (refresh (mkContract CONTRACT_ADDRESS CONTRACT_ABI sg) (world s)))%list /\
    match outcome (refresh (mkContract CONTRACT_ADDRESS CONTRACT_ABI sg) (world s)) with
    | Resolved l =>
        assets (app s') = l /\ message (app s') = text ContractConnected
    | Rejected e =>
        assets (app s') = assets (app s) /\ message (app s') = text (LoadError e)
    end.
Proof.
  intros Hsg Hwalk. eexists.
  split; [exact (connectContract_runs fuel st sg s Hsg Hwalk) |].
  split; [| split].
  - unfold refreshed. destruct (outcome _); reflexivity.
  - rewrite log_refreshed. cbn [updated log]. rewrite <- !app_assoc. reflexivity.
  - unfold refreshed. destruct (outcome _); split; reflexivity.
Qed.


(** X12.  [verifyAsset] reports the answer of the contract and touches
    nothing else.  With a contract bound it makes exactly one call,
    [verifyAsset(Number(verifyAssetId), verifyHash)], and sets the message
    to the valid mark when the call answers [true], to the mismatch when it
    answers [false], and to the error when it rejects.  Every cell but the
    message, the form included, is as before. *)
Theorem verifyAsset_reports_the_answer (st : AppState) (c : Contract) (s : Sys W) :
  contract st = Some c ->
  exists s',
    verifyAsset st s = Ret tt s' /\
    app s' = with_message (message (app s')) (app s) /\
    listeners s' = listeners s /\
    world s' = snd (Registry.verifyAsset c (Number (verifyAssetId st))
                                         (verifyHash st) (world s)) /\
    log s' = (log s ++ [ECall (CVerifyAsset c (Number (verifyAssetId st))
                                            (verifyHash st));
                        ESetMessage (message (app s'))])%list /\
    message (app s')
    = match fst (Registry.verifyAsset c (Number (verifyAssetId st))
                                      (verifyHash st) (world s)) with
      | Resolved true => text HashValid
      | Resolved false => text HashMismatch
      | Rejected e => text (VerifyError e)
      end.
Proof.
  intros Hc. unfold verifyAsset. rewrite Hc. step_handler.
  destruct (fst (Registry.verifyAsset c (Number (verifyAssetId st))
                                      (verifyHash st) (world s))) as [[|]|e];
    eexists; (split; [reflexivity |]);
    unfold updated, answered; cbn [app listeners world log message with_message];
    rewrite <- app_assoc; repeat split.
Qed.

End ConnectFacts.

(** ** The catalog and the registry *)

Section MirrorFacts.

Context {W : Type} {wallet : Wallet W} {registry : Registry.Methods W}
        {runtime : Runtime}.

Lemma read_in_order_pure (c : Contract) (w : W) (ids : list Z) :
  (forall i, snd (Registry.getAsset c (Int i) w) = w) ->
  world_after (read_in_order c ids w) = w /\
  (forall l, outcome (read_in_order c ids w) = Resolved l ->
             map Some l = map (entry c w) ids) /\
  ((forall i, In i ids -> entry c w i <> None) ->
   exists l, outcome (read_in_order c ids w) = Resolved l).
Proof.
  intros Hpure. induction ids as [|i ids (IHw & IHl & IHall)].
  - cbn. split; [reflexivity | split].
    + intros l Hl. injection Hl as <-. reflexivity.
    + intros _. exists []. reflexivity.
  - cbn [read_in_order map]. rewrite (Hpure i).
    destruct (fst (Registry.getAsset c (Int i) w)) as [[[[nm h] o] t]|e] eqn:Hget.
    + assert (Hi : entry c w i = Some (mkAsset i nm h o (Number_of_bigint t)))
        by (unfold entry; rewrite Hget; reflexivity).
      cbn [world_after outcome]. split; [exact IHw | split].
      * intros l Hl.
        destruct (outcome (read_in_order c ids w)) as [l'|e]; [| discriminate Hl].
        injection Hl as <-. cbn [map]. rewrite (IHl l' eq_refl), Hi. reflexivity.
      * intros Hall. destruct IHall as [l' Hl'].
        { intros j Hj. apply Hall. right. exact Hj. }
        rewrite Hl'. eexists. reflexivity.
    + cbn [world_after outcome]. split; [reflexivity | split].
      * discriminate.
      * intros Hall. exfalso. apply (Hall i); [left; reflexivity |].
        unfold entry. rewrite Hget. reflexivity.
Qed.

Lemma refresh_pure (c : Contract) (w : W) :
  reads_are_pure c w -> world_after (refresh c w) = w.
Proof.
  intros [Hcount Hreads]. unfold refresh. rewrite Hcount.
  destruct (fst (Registry.assetCount c w)); [| reflexivity].
  cbn [world_after]. apply read_in_order_pure, Hreads.
Qed.

Lemma world_refreshed (r : Reading W) (s : Sys W) :
  world (refreshed r s) = world_after r.
Proof. unfold refreshed. destruct (outcome r); reflexivity. Qed.

(** X13.  Refreshing twice is refreshing once.  In a world that the reads
    leave as it is, a second [loadAssets] through the same handle, right
    after the first, changes no cell: the catalog and the message are those
    of the first refresh, whether it succeeded or failed. *)
Theorem refresh_twice_is_refresh_once (fuel : nat) (st st' : AppState)
        (co co' : option Contract) (c : Contract) (s : Sys W) :
  match co with Some c' => Some c' | None => contract st end = Some c ->
  match co' with Some c' => Some c' | None => contract st' end = Some c ->
  walkable fuel c (world s) ->
  reads_are_pure c (world s) ->
  exists s1 s2,
    loadAssets fuel st co s = Ret tt s1 /\
    loadAssets fuel st' co' s1 = Ret tt s2 /\
    app s2 = app s1 /\
    world s2 = world s.
Proof.
  intros Hc Hc' Hwalk Hpure.
  pose proof (refresh_pure c (world s) Hpure) as Hw.
  exists (refreshed (refresh c (world s)) s).
  exists (refreshed (refresh c (world s)) (refreshed (refresh c (world s)) s)).
  split; [apply loadAssets_runs; assumption |].
  split.
  - rewrite (loadAssets_runs fuel st' co' c); [| exact Hc' |].
    + rewrite world_refreshed, Hw. reflexivity.
    + rewrite world_refreshed, Hw. exact Hwalk.
  - split; [| rewrite world_refreshed; exact Hw].
    unfold refreshed. destruct (outcome (refresh c (world s))); reflexivity.
Qed.

(** X14.  The catalog mirrors the registry.  In a world that the reads
    leave as it is, where [assetCount] answers [n] and [getAsset] answers
    for every id in [[1, n]], [loadAssets] leaves [n] cards, and the card
    at position [k] carries the id [k + 1] and the name, hash and owner
    that [getAsset(k + 1)] answers, with its timestamp converted by
    [Number], which is exact up to [2^53 - 1]. *)
Theorem catalog_mirrors_the_registry (fuel : nat) (st : AppState)
        (co : option Contract) (c : Contract) (s : Sys W) (n : Z) :
  match co with Some c' => Some c' | None => contract st end = Some c ->
  walkable fuel c (world s) ->
  reads_are_pure c (world s) ->
  fst (Registry.assetCount c (world s)) = Resolved n ->
  (forall i, 1 <= i <= n ->
             exists t, fst (Registry.getAsset c (Int i) (world s)) = Resolved t) ->
  exists s',
    loadAssets fuel st co s = Ret tt s' /\
    List.length (assets (app s')) = Z.to_nat n /\
    forall k a name_ hash_ owner_ timestamp_,
      nth_error (assets (app s')) k = Some a ->
      fst (Registry.getAsset c (Int (Z.of_nat k + 1)) (world s))
      = Resolved (name_, hash_, owner_, timestamp_) ->
      a = mkAsset (Z.of_nat k + 1) name_ hash_ owner_ (Number_of_bigint timestamp_) /\
      (0 <= timestamp_ <= MAX_SAFE_INTEGER -> timestamp a = timestamp_).
Proof.
  intros Hc Hwalk [Hcount Hreads] Hn Hall.
  exists (refreshed (refresh c (world s)) s).
  split; [apply loadAssets_runs; assumption |].
  unfold refreshed, refresh. rewrite Hn, Hcount. cbn [outcome calls world_after].
  destruct (read_in_order_pure c (world s) (ids_upto n) Hreads) as (_ & Hentries & Hsome).
  destruct Hsome as [l Hl].
  { intros i Hi. unfold ids_upto in Hi. apply in_map_iff in Hi.
    destruct Hi as (m & <- & Hm). apply in_seq in Hm.
    destruct (Hall (Z.of_nat m)) as [[[[nm h] o] t] Ht]; [lia |].
    unfold entry. rewrite Ht. discriminate. }
  rewrite Hl. cbn [app assets with_assets].
  specialize (Hentries l Hl).
  split.
  - rewrite <- (length_map Some l), Hentries, length_map. apply length_ids_upto.
  - intros k a nm h o t Hk Hget.
    assert (Hka : nth_error (map (entry c (world s)) (ids_upto n)) k = Some (Some a)).
    { rewrite <- Hentries, nth_error_map, Hk. reflexivity. }
    rewrite nth_error_map in Hka.
    destruct (nth_error (ids_upto n) k) as [i|] eqn:Hi; [| discriminate Hka].
    apply nth_error_ids_upto in Hi. subst i.
    injection Hka as Hka. unfold entry in Hka. rewrite Hget in Hka.
    injection Hka as <-. split; [reflexivity |].
    intros Ht. cbn [timestamp]. apply Number_of_bigint_safe, Ht.
Qed.

End MirrorFacts.

(** ** The form *)

Section FormFacts.

Context {W : Type} {wallet : Wallet W} {registry : Registry.Methods W}
        {runtime : Runtime}.




(** X16.  A confirmed registration empties its two fields and nothing
    else of the form.  When the submission and the wait resolve,
    [registerAsset] returns with the name and the hash emptied, the verify
    and transfer fields as typed and the busy flag cleared.  If the refresh
    that follows succeeds the catalog is the new one and the message the
    success; if it fails the catalog is the old one and the message is the
    loading error, which has replaced the success. *)
Theorem confirmed_registration_clears_its_fields (fuel : nat) (st : AppState)
        (c : Contract) (s : Sys W) (w : W) :
  contract st = Some c ->
  confirmed_world (Registry.registerAsset c (assetName st) (assetHash st))
                  (world s) = Some w ->
  walkable fuel c w ->
  exists s',
    registerAsset fuel st s = Ret tt s' /\
    assetName (app s') = "" /\
    assetHash (app s') = "" /\
    verifyAssetId (app s') = verifyAssetId (app s) /\
    verifyHash (app s') = verifyHash (app s) /\
    transferAssetId (app s') = transferAssetId (app s) /\
    transferTo (app s') = transferTo (app s) /\
    loading (app s') = false /\
    match outcome (refresh c w) with
    | Resolved l => assets (app s') = l /\ message (app s') = text Registered
    | Rejected e =>
        assets (app s') = assets (app s) /\ message (app s') = text (LoadError e)
    end.
Proof.
  intros Hc Hconf Hwalk. eexists. split.
  - apply registerAsset_runs; [exact Hc |].
    intros w' Hw'. rewrite Hconf in Hw'. injection Hw' as <-. exact Hwalk.
  - unfold confirmed_world in Hconf. unfold mutated, clear_register.
    cbn [updated answered world].
    destruct (fst (Registry.registerAsset c (assetName st) (assetHash st) (world s)))
      as [tx|e]; [| discriminate Hconf].
    destruct (fst (Registry.wait tx _)) as [[]|e]; [| discriminate Hconf].
    injection Hconf as <-. unfold refreshed.
    destruct (outcome (refresh c _)); repeat split.
Qed.

(** X17.  A confirmed transfer empties its two fields and nothing else of
    the form, in the same way. *)
Theorem confirmed_transfer_clears_its_fields (fuel : nat) (st : AppState)
        (c : Contract) (s : Sys W) (w : W) :
  contract st = Some c ->
  confirmed_world (Registry.transferOwnership c (Number (transferAssetId st))
                                              (transferTo st))
                  (world s) = Some w ->
  walkable fuel c w ->
  exists s',
    transferOwnership fuel st s = Ret tt s' /\
    transferAssetId (app s') = "" /\
    transferTo (app s') = "" /\
    assetName (app s') = assetName (app s) /\
    assetHash (app s') = assetHash (app s) /\
    verifyAssetId (app s') = verifyAssetId (app s) /\
    verifyHash (app s') = verifyHash (app s) /\
    loading (app s') = false /\
    match outcome (refresh c w) with
    | Resolved l => assets (app s') = l /\ message (app s') = text Transferred
    | Rejected e =>
        assets (app s') = assets (app s) /\ message (app s') = text (LoadError e)
    end.
Proof.
  intros Hc Hconf Hwalk. eexists. split.
  - apply transferOwnership_runs; [exact Hc |].
    intros w' Hw'. rewrite Hconf in Hw'. injection Hw' as <-. exact Hwalk.
  - unfold confirmed_world in Hconf. unfold mutated, clear_transfer.
    cbn [updated answered world].
    destruct (fst (Registry.transferOwnership c (Number (transferAssetId st))
                                              (transferTo st) (world s)))
      as [tx|e]; [| discriminate Hconf].
    destruct (fst (Registry.wait tx _)) as [[]|e]; [| discriminate Hconf].
    injection Hconf as <-. unfold refreshed.
    destruct (outcome (refresh c _)); repeat split.
Qed.


End FormFacts.

(** ** More of the session, run *)

Lemma sim_reads_are_pure (c : Contract) (w : Sim.Chain) :
  Sim.outage w = None -> reads_are_pure c w.
Proof.
  intros Hup. unfold reads_are_pure, Registry.assetCount, Registry.getAsset,
    Sim.methods, Sim.transport.
  rewrite Hup. split; [reflexivity |].
  intros i. destruct (Sim.stored i w); reflexivity.
Qed.

(** The session up to the registration is made of actions of the page. *)
Lemma registered_reachable : reachable Sim.registered.
Proof.
  apply (reach_return Sim.filled _ 10 (Click RegisterButton));
    [| vm_compute; reflexivity].
  apply (reach_return (Sim.run (onChange AssetNameField "Deed A") Sim.ready) _ 0
                      (Change AssetHashField "0xabc"));
    [| vm_compute; reflexivity].
  apply (reach_return Sim.ready _ 0 (Change AssetNameField "Deed A"));
    [| vm_compute; reflexivity].
  apply (reach_return Sim.mounted _ 10 (Click ConnectContractButton));
    [| vm_compute; reflexivity].
  apply (reach_return Sim.start _ 0 Mount); [| vm_compute; reflexivity].
  apply reach_boot.
Defined.

(** Refreshing the page after the registration sends no transaction. *)
Lemma only_mutations_submit_witness :
  exists s',
    perform 10 (Click RefreshButton) Sim.registered = Ret tt s' /\
    loading (app s') = false.
Proof.
  eexists. split; [vm_compute; reflexivity |].
  refine (proj2 (only_mutations_submit 10 (Click RefreshButton) Sim.registered _
                   eq_refl _)).
  vm_compute. reflexivity.
Defined.

(** The wallet reports no account: the signer stays bound. *)
Lemma bindings_are_kept_witness :
  exists s',
    perform 0 (AccountsChanged []) Sim.registered = Ret tt s' /\
    signer (app s') <> None.
Proof.
  eexists. split; [vm_compute; reflexivity |].
  refine (proj1 (proj2 (bindings_are_kept 0 (AccountsChanged []) Sim.registered _ _))
                _).
  - vm_compute. reflexivity.
  - discriminate.
Defined.

(** The page after the registration is at rest. *)
Lemma pages_at_rest_are_idle_witness : loading (app Sim.registered) = false.
Proof. exact (proj1 (pages_at_rest_are_idle Sim.registered registered_reachable)). Defined.

(** Its one card has a key of its own. *)
Lemma catalog_ids_count_from_one_witness :
  NoDup (map id (assets (app Sim.registered))).
Proof.
  exact (proj2 (catalog_ids_count_from_one Sim.registered registered_reachable)).
Defined.

(** Its message is the success of the registration. *)
Lemma message_is_a_reported_outcome_witness :
  (message (app Sim.registered) = "" /\ statusMessage (app Sim.registered) = None) \/
  (exists o, message (app Sim.registered) = text o /\
             statusMessage (app Sim.registered)
             = Some (messageClass (text o), text o)).
Proof. exact (message_is_a_reported_outcome Sim.registered registered_reachable). Defined.



(** The mount in a browser without a wallet. *)
Lemma mount_is_silent_without_wallet_witness :
  useEffect_mount Pages.no_wallet = Ret tt Pages.no_wallet.
Proof.
  exact (proj1 (mount_is_silent_without_wallet 0 Pages.no_wallet eq_refl)).
Defined.

(** Connect Contract on the page just mounted. *)
Lemma connectContract_binds_then_refreshes_witness :
  exists s',
    connectContract 10 (app Sim.mounted) Sim.mounted = Ret tt s' /\
    contract (app s') = Some Sim.handle.
Proof.
  destruct (connectContract_binds_then_refreshes 10 (app Sim.mounted)
              (mkSigner "0xAA") Sim.mounted) as (s' & Hrun & Hc & _).
  - reflexivity.
  - sim_walkable.
  - exists s'. split; [exact Hrun | exact Hc].
Defined.

(** A wrong hash for the registered deed. *)
Lemma verifyAsset_reports_the_answer_witness :
  exists s',
    verifyAsset (with_verifyHash "0xbad" (with_verifyAssetId "1" (app Sim.registered)))
                Sim.registered = Ret tt s' /\
    message (app s') = text HashMismatch.
Proof.
  destruct (verifyAsset_reports_the_answer
              (with_verifyHash "0xbad" (with_verifyAssetId "1" (app Sim.registered)))
              Sim.handle Sim.registered) as (s' & Hrun & _ & _ & _ & _ & Hmsg).
  - reflexivity.
  - exists s'. split; [exact Hrun |]. rewrite Hmsg. vm_compute. reflexivity.
Defined.

(** Two refreshes in a row of the page after the registration. *)
Lemma refresh_twice_is_refresh_once_witness :
  exists s1 s2,
    loadAssets 10 (app Sim.registered) None Sim.registered = Ret tt s1 /\
    loadAssets 10 (app Sim.registered) None s1 = Ret tt s2 /\
    app s2 = app s1.
Proof.
  destruct (refresh_twice_is_refresh_once 10 (app Sim.registered)
              (app Sim.registered) None None Sim.handle Sim.registered)
    as (s1 & s2 & H1 & H2 & Happ & _).
  - reflexivity.
  - reflexivity.
  - sim_walkable.
  - apply sim_reads_are_pure. reflexivity.
  - exists s1, s2. split; [exact H1 | split; [exact H2 | exact Happ]].
Defined.

(** The one card of the page after the registration. *)
Lemma catalog_mirrors_the_registry_witness :
  exists s',
    loadAssets 10 (app Sim.registered) None Sim.registered = Ret tt s' /\
    List.length (assets (app s')) = 1%nat.
Proof.
  destruct (catalog_mirrors_the_registry 10 (app Sim.registered) None Sim.handle
              Sim.registered 1) as (s' & Hrun & Hlen & _).
  - reflexivity.
  - sim_walkable.
  - apply sim_reads_are_pure. reflexivity.
  - reflexivity.
  - intros i Hi. assert (i = 1) as -> by lia. eexists. vm_compute. reflexivity.
  - exists s'. split; [exact Hrun | exact Hlen].
Defined.


(** The registration of the session. *)
Lemma confirmed_registration_clears_its_fields_witness :
  exists s',
    registerAsset 10 (app Sim.filled) Sim.filled = Ret tt s' /\
    assetName (app s') = "".
Proof.
  edestruct (confirmed_registration_clears_its_fields 10 (app Sim.filled)
               Sim.handle Sim.filled) as (s' & Hrun & Hname & _).
  - reflexivity.
  - vm_compute. reflexivity.
  - sim_walkable.
  - exists s'. split; [exact Hrun | exact Hname].
Defined.

(** The transfer of asset 1 to [0xBB]. *)
Lemma confirmed_transfer_clears_its_fields_witness :
  exists s',
    transferOwnership 10 (app Pages.transfer_typed) Pages.transfer_typed = Ret tt s' /\
    transferTo (app s') = "".
Proof.
  edestruct (confirmed_transfer_clears_its_fields 10 (app Pages.transfer_typed)
               Sim.handle Pages.transfer_typed) as (s' & Hrun & _ & Hto & _).
  - reflexivity.
  - vm_compute. reflexivity.
  - sim_walkable.
  - exists s'. split; [exact Hrun | exact Hto].
Defined.

